(** * MetaMusic: playlist analysis scripts (Spotify and Deezer variants)

    A shallow embedding of [src/index.ts] (the Spotify script, "variant A")
    and of its Deezer sibling ("variant B"), together with the properties
    their specification states about them.

    Modelling choices, all taken from the source:
    - [async] functions run strictly one after another ([await] everywhere),
      so they are functions in a state-and-exception monad [M];
    - every HTTP request is answered by an oracle of the [World]; the oracle
      sees the clock (number of events so far) and the URL, so the same URL
      may fail once and succeed later;
    - response payloads have the shape that the type annotations, casts and
      guards of the source give them; a field the code guards is optional;
    - a duration is an integer-valued JS number, NaN or an infinity (both
      providers send integer durations);
    - built-ins whose tables are not part of the repository
      ([toLowerCase], [encodeURIComponent], [Number] on strings) are fields
      of the [Runtime] class: every theorem holds for every runtime;
    - a string is the sequence of its character codes, and [<] on strings
      compares them code by code;
    - [console.log] and [console.error] leave no mark in the state, and the
      start-up checks of the environment are not part of the model: the
      playlist identifier and the API key are parameters;
    - the sentinel that the specification calls "Unknown" is the literal
      ['Inconnu'] of the source. *)

From Stdlib Require Import ZArith List String Ascii Permutation Sorted Lia.
From Stdlib Require Import DecimalString.
From stdpp Require Import gmap strings.

Local Open Scope string_scope.
Local Open Scope Z_scope.

(** ** JavaScript values used by the scripts *)

Module JS.

(** Numbers: NaN, the infinities, and the integer-valued doubles. *)
Inductive JSNum : Type :=
| NaN
| PosInfinity
| NegInfinity
| Fin (z : Z).

(** A value of type [number | null | undefined]. *)
Inductive Nullable (A : Type) : Type :=
| Undefined
| Null
| Val (a : A).
Arguments Undefined {A}.
Arguments Null {A}.
Arguments Val {A} a.

(** [Number.isFinite] *)
Definition isFinite (n : JSNum) : bool :=
  match n with Fin _ => true | _ => false end.

(** [Number.isFinite(v)] on an optional number. *)
Definition isFiniteV (v : Nullable JSNum) : bool :=
  match v with Val n => isFinite n | _ => false end.

(** Truthiness of a number: [0] and [NaN] are falsy. *)
Definition truthyNum (n : JSNum) : bool :=
  match n with
  | NaN => false
  | Fin z => negb (z =? 0)
  | _ => true
  end.

(** Truthiness of an optional number. *)
Definition truthyNullableNum (v : Nullable JSNum) : bool :=
  match v with Val n => truthyNum n | _ => false end.

(** Truthiness of a string: only [''] is falsy. *)
Definition truthyStr (s : string) : bool :=
  match s with EmptyString => false | _ => true end.

(** Truthiness of an optional string. *)
Definition truthyOptStr (o : option string) : bool :=
  match o with Some s => truthyStr s | None => false end.

(** [s || d] on strings. *)
Definition orStr (s d : string) : string :=
  if truthyStr s then s else d.

(** [a === b] on strings. *)
Definition strictEq (a b : string) : bool := String.eqb a b.

(** [Math.floor(a / b)] on integer-valued numbers, [b > 0]. *)
Definition floorDiv (a b : Z) : Z := a / b.

(** [a % b]: the remainder has the sign of the dividend. *)
Definition remainder (a b : Z) : Z := Z.rem a b.

(** [n.toString()] and template interpolation of an integer-valued number. *)
Definition toString (z : Z) : string := NilZero.string_of_int (Z.to_int z).

(** The first [k] characters of [rest] followed by repetitions of [fill]. *)
Fixpoint padding (k : nat) (fill rest : string) : string :=
  match k with
  | O => ""
  | S k' =>
      match rest with
      | String c r => String c (padding k' fill r)
      | EmptyString =>
          match fill with
          | String c r => String c (padding k' fill r)
          | EmptyString => ""
          end
      end
  end.

(** [s.padStart(n, fill)] *)
Definition padStart (n : nat) (fill s : string) : string :=
  if (n <=? String.length s)%nat then s
  else padding (n - String.length s) fill fill ++ s.

(** [xs.join(sep)] on an array of strings. *)
Fixpoint join (sep : string) (xs : list string) : string :=
  match xs with
  | [] => ""
  | [x] => x
  | x :: rest => x ++ sep ++ join sep rest
  end.

(** Built-ins that depend on tables outside the repository. *)
Class Runtime : Type := {
  (** [String.prototype.toLowerCase] *)
  toLowerCase : string -> string;
  (** [encodeURIComponent]; [None] is the [URIError] it may throw *)
  encodeURIComponent : string -> option string;
  (** the numbers [Number] can return on a string *)
  double : Type;
  (** [Number(s)] for a string [s] *)
  Number : string -> double;
  (** [Number.isFinite] on those numbers *)
  doubleIsFinite : double -> bool
}.

End JS.
Import JS.


(** ** Data model *)

(** [Track] of [src/types.ts] (the optional [bpm] is never read). *)
Record Artist : Type := { artist_id : string; artist_name : string }.
Record Album : Type := { album_id : string; album_title : string }.
Record Track : Type := {
  track_id : string;
  track_title : string;
  durationMs : Nullable JSNum;
  artist : Artist;
  album : Album
}.

(** The [duration_seconds] column is [number | string]. *)
Inductive NumOrStr : Type :=
| IsNum (n : JSNum)
| IsStr (s : string).

(** One row of the report (the element type of [records] in both scripts). *)
Record OutputRecord : Type := {
  title : string;
  r_artist : string;
  r_album : string;
  genre : string;
  duration : string;
  duration_seconds : NumOrStr
}.

(** The value cached per album by the Deezer script: [{ genres }]. *)
Record AlbumInfo : Type := { genres : list string }.

(** The placeholder the scripts write when a value is missing. *)
Definition Inconnu : string := "Inconnu".

(** ** Effects: requests, pauses, the album cache, the CSV file *)

Module Eff.

(** The two HTTP clients: plain [axios] and the authorised [axiosSpotify]. *)
Inductive Client : Type := Axios | AxiosSpotify.

Inductive Event : Type :=
| Get (c : Client) (url : string)   (* [await client.get(url)] *)
| Sleep (ms : Z).                   (* [await new Promise(r => setTimeout(r, ms))] *)

Inductive Error : Type :=
| RequestError (url : string)
| URIError.

Record State : Type := {
  trace : list Event;                     (* events so far, oldest first *)
  albumCache : gmap Z AlbumInfo;          (* [albumCache] of the Deezer script *)
  csvFile : option (list OutputRecord)    (* rows given to [writeRecords] *)
}.

Definition initial : State :=
  {| trace := []; albumCache := ∅; csvFile := None |}.

Inductive Result (A : Type) : Type :=
| Ok (a : A)
| Throw (e : Error)
| OutOfFuel.
Arguments Ok {A} a.
Arguments Throw {A} e.
Arguments OutOfFuel {A}.

Definition M (A : Type) : Type := State -> Result A * State.

Definition ret {A} (a : A) : M A := fun s => (Ok a, s).

Definition bind {A B} (m : M A) (k : A -> M B) : M B :=
  fun s =>
    match m s with
    | (Ok a, s') => k a s'
    | (Throw e, s') => (Throw e, s')
    | (OutOfFuel, s') => (OutOfFuel, s')
    end.

Definition throw {A} (e : Error) : M A := fun s => (Throw e, s).

(** A loop that used up its fuel (the script would still be running). *)
Definition outOfFuel {A} : M A := fun s => (OutOfFuel, s).

(** [try { m } catch (e) { h e }] *)
Definition try_catch {A} (m : M A) (h : Error -> M A) : M A :=
  fun s =>
    match m s with
    | (Throw e, s') => h e s'
    | r => r
    end.

(** The state after more events. *)
Definition addEvents (s : State) (evs : list Event) : State :=
  {| trace := trace s ++ evs;
     albumCache := albumCache s;
     csvFile := csvFile s |}.

Definition emit (ev : Event) : M unit := fun s => (Ok tt, addEvents s [ev]).

(** The clock an oracle sees: the number of events before the request. *)
Definition now : M nat := fun s => (Ok (length (trace s)), s).

(** [await client.get(url)], answered by [oracle]; [None] rejects. *)
Definition get {A} (c : Client) (oracle : nat -> string -> option A)
    (url : string) : M A :=
  bind now (fun t =>
  bind (emit (Get c url)) (fun _ =>
  match oracle t url with
  | Some a => ret a
  | None => throw (RequestError url)
  end)).

(** [await new Promise((resolve) => setTimeout(resolve, ms))] *)
Definition sleep (ms : Z) : M unit := emit (Sleep ms).

(** [encodeURIComponent(s)] inside a monadic block. *)
Definition encode `{Runtime} (s : string) : M string :=
  match encodeURIComponent s with
  | Some e => ret e
  | None => throw URIError
  end.

Definition cacheHas (k : Z) : M bool :=
  fun s => (Ok (bool_decide (is_Some (albumCache s !! k))), s).

Definition cacheGet (k : Z) : M (option AlbumInfo) :=
  fun s => (Ok (albumCache s !! k), s).

(** The state after [albumCache.set(k, v)]. *)
Definition withCache (s : State) (k : Z) (v : AlbumInfo) : State :=
  {| trace := trace s;
     albumCache := <[k := v]> (albumCache s);
     csvFile := csvFile s |}.

Definition cacheSet (k : Z) (v : AlbumInfo) : M unit :=
  fun s => (Ok tt, withCache s k v).

(** The state after the rows are written. *)
Definition withCsv (s : State) (rs : list OutputRecord) : State :=
  {| trace := trace s;
     albumCache := albumCache s;
     csvFile := Some rs |}.

(** [await csvWriter.writeRecords(records)] *)
Definition writeRecords (rs : list OutputRecord) : M unit :=
  fun s => (Ok tt, withCsv s rs).

(** [for (const x of xs) { acc = body(acc, x) }] *)
Fixpoint forOf {A B} (body : B -> A -> M B) (xs : list A) (acc : B) : M B :=
  match xs with
  | [] => ret acc
  | x :: rest => bind (body acc x) (forOf body rest)
  end.

(** Requests of a trace, and pauses of a trace. *)
Definition isGet (ev : Event) : bool :=
  match ev with Get _ _ => true | Sleep _ => false end.
Definition isSleep (ev : Event) : bool :=
  match ev with Sleep _ => true | Get _ _ => false end.
Definition requests (tr : list Event) : list Event := List.filter isGet tr.
Definition pauses (tr : list Event) : list Event := List.filter isSleep tr.

End Eff.
Import Eff.

Notation "x <- m ;; k" := (bind m (fun x => k))
  (at level 100, m at next level, right associativity).
Notation "m ;;; k" := (bind m (fun _ => k))
  (at level 100, right associativity).

(** ** Response payloads and the world that serves them *)

(** Spotify: one page of [/v1/playlists/{id}/tracks]. *)
Record SpotifyArtistRef : Type := { sa_id : string; sa_name : string }.
Record SpotifyAlbumRef : Type := { sal_id : string; sal_name : string }.
Record SpotifyTrack : Type := {
  st_id : string;
  st_name : string;
  st_duration_ms : Nullable JSNum;
  st_artists : option (list SpotifyArtistRef);
  st_album : option SpotifyAlbumRef
}.
Record PlaylistItem : Type := { item_track : option SpotifyTrack }.
Record PlaylistPage : Type := {
  items : list PlaylistItem;
  next : option string
}.

(** Spotify: [/v1/artists/{id}]. *)
Record SpotifyArtist : Type := { artist_genres : option (list string) }.

(** TheAudioDB: [search.php?s=] and [searchtrack.php?s=&t=]. *)
Record AudioDBArtist : Type := { strGenre : option string }.
Record AudioDBArtists : Type := { artists : option (list AudioDBArtist) }.
Record AudioDBTrack : Type := { intTempo : option string }.
Record AudioDBTracks : Type := { track : option (list AudioDBTrack) }.

(** Deezer: [/album/{id}] and the native tracks of [/playlist/{id}/tracks]. *)
Record DeezerGenre : Type := { genre_name : option string }.
Record DeezerGenres : Type := { genres_data : option (list DeezerGenre) }.
Record DeezerAlbum : Type := { album_genres : option DeezerGenres }.
Record DeezerArtistRef : Type := { da_name : option string }.
Record DeezerAlbumRef : Type := { dal_id : option Z; dal_title : option string }.
Record DeezerTrack : Type := {
  dt_title : option string;
  dt_artist : option DeezerArtistRef;
  dt_album : option DeezerAlbumRef;
  dt_duration : Nullable JSNum
}.

(** The servers. Each oracle gets the clock and the URL; the outer [None]
    is a rejected request, an inner [None] is a falsy [response.data]. *)
Record World : Type := {
  spotifyPlaylistTracks : nat -> string -> option PlaylistPage;
  spotifyArtist : nat -> string -> option (option SpotifyArtist);
  audioDBSearch : nat -> string -> option (option AudioDBArtists);
  audioDBSearchTrack : nat -> string -> option (option AudioDBTracks);
  deezerPlaylistTracks : nat -> string -> option (list DeezerTrack);
  deezerAlbum : nat -> string -> option (option DeezerAlbum)
}.

(** How [analyzePlaylist] ends: [process.exit(code)] or normal completion. *)
Inductive RunEnd : Type :=
| Exited (code : Z)
| Completed.

(** ** The report sort (the same text in both scripts) *)

Section Sort.
Context `{Runtime}.

(** The comparator given to [records.sort]. *)
Definition compareRecords (a b : OutputRecord) : Z :=
  let ga := toLowerCase (orStr (genre a) "") in
  let gb := toLowerCase (orStr (genre b) "") in
  if (ga <? gb)%string then -1
  else if (gb <? ga)%string then 1
  else
    let aa := toLowerCase (orStr (r_artist a) "") in
    let ab := toLowerCase (orStr (r_artist b) "") in
    if (aa <? ab)%string then -1
    else if (ab <? aa)%string then 1
    else
      let ta := toLowerCase (orStr (title a) "") in
      let tb := toLowerCase (orStr (title b) "") in
      if (ta <? tb)%string then -1
      else if (tb <? ta)%string then 1
      else 0.

(** [Array.prototype.sort(cmp)]. The language requires the sort to be
    stable, so for a consistent comparator every engine returns the array
    that stable insertion computes. *)
Fixpoint insertBy {A} (cmp : A -> A -> Z) (x : A) (l : list A) : list A :=
  match l with
  | [] => [x]
  | y :: l' => if cmp x y <=? 0 then x :: l else y :: insertBy cmp x l'
  end.

Definition sortBy {A} (cmp : A -> A -> Z) (l : list A) : list A :=
  fold_right (insertBy cmp) [] l.

(** [records.sort((a, b) => ...)] *)
Definition sortRecords (records : list OutputRecord) : list OutputRecord :=
  sortBy compareRecords records.

(** The lowercased key triple the comparator looks at. *)
Definition sortKey (r : OutputRecord) : string * string * string :=
  (toLowerCase (genre r), toLowerCase (r_artist r), toLowerCase (title r)).

(** Ascending order on key triples: genre first, then artist, then title,
    each by the character codes of the lowercased string. *)
Definition str_lt (a b : string) : Prop := (a <? b)%string = true.

Definition key_le (k1 k2 : string * string * string) : Prop :=
  let '(g1, a1, t1) := k1 in
  let '(g2, a2, t2) := k2 in
  str_lt g1 g2 \/
  (g1 = g2 /\ (str_lt a1 a2 \/ (a1 = a2 /\ (str_lt t1 t2 \/ t1 = t2)))).

(** The records of a list that have a given key, in the order of the list. *)
Definition withKey (k : string * string * string) (l : list OutputRecord)
    : list OutputRecord :=
  List.filter (fun r => bool_decide (sortKey r = k)) l.

End Sort.

(** ** Variant A: the Spotify script, [src/index.ts] *)

Module Spotify.
Section Script.
Context `{Runtime}.
Variable W : World.
(** [process.env.THEAUDIODB_API_KEY || '1'] *)
Variable THEAUDIODB_API_KEY : string.

(** The object built for one non-null [item.track]. *)
Definition mapTrack (t : SpotifyTrack) : Track :=
  {| track_id := st_id t;
     track_title := st_name t;
     durationMs := st_duration_ms t;
     artist :=
       {| artist_id :=
            match st_artists t with
            | Some (a :: _) => sa_id a
            | _ => "unknown"
            end;
          artist_name :=
            match st_artists t with
            | Some (a :: _) => sa_name a
            | _ => Inconnu
            end |};
     album :=
       {| album_id :=
            match st_album t with Some al => sal_id al | None => "unknown" end;
          album_title :=
            match st_album t with Some al => sal_name al | None => Inconnu end |} |}.

(** [for (const item of data.items) { ... tracks.push(mapped) }] *)
Fixpoint pushItems (tracks : list Track) (its : list PlaylistItem) : list Track :=
  match its with
  | [] => tracks
  | item :: rest =>
      match item_track item with
      | None => pushItems tracks rest                      (* [continue] *)
      | Some t => pushItems (tracks ++ [mapTrack t])%list rest
      end
  end.

(** [while (url) { ... url = data.next }] *)
Fixpoint getPlaylistTracks_while (fuel : nat) (url : option string)
    (tracks : list Track) : M (list Track) :=
  if truthyOptStr url then
    match fuel with
    | O => outOfFuel
    | S fuel' =>
        data <- get AxiosSpotify (spotifyPlaylistTracks W) (default "" url) ;;
        getPlaylistTracks_while fuel' (next data) (pushItems tracks (items data))
    end
  else ret tracks.

Definition playlistUrl (playlistId : string) : string :=
  "https://api.spotify.com/v1/playlists/" ++ playlistId ++ "/tracks?limit=100".

Definition getPlaylistTracks (fuel : nat) (playlistId : string) : M (list Track) :=
  getPlaylistTracks_while fuel (Some (playlistUrl playlistId)) [].

(** The URL templates of the three enrichment requests. *)
Definition searchUrl (enc : string) : string :=
  "https://theaudiodb.com/api/v1/json/" ++ THEAUDIODB_API_KEY
    ++ "/search.php?s=" ++ enc.

Definition searchTrackUrl (encArtist encTitle : string) : string :=
  "https://theaudiodb.com/api/v1/json/" ++ THEAUDIODB_API_KEY
    ++ "/searchtrack.php?s=" ++ encArtist ++ "&t=" ++ encTitle.

Definition artistUrl (artistId : string) : string :=
  "https://api.spotify.com/v1/artists/" ++ artistId.

Definition getGenreFromAudioDB (artistName : string) : M string :=
  try_catch
    (enc <- encode artistName ;;
     let url := searchUrl enc in
     response <- get Axios (audioDBSearch W) url ;;
     match response with
     | Some {| artists := Some (a :: _) |} =>
         match strGenre a with
         | Some g => if truthyStr g then ret g else ret Inconnu
         | None => ret Inconnu
         end
     | _ => ret Inconnu
     end)
    (fun _ => ret Inconnu).

Definition getTrackBpmFromAudioDB (artistName trackTitle : string)
    : M (option double) :=
  try_catch
    (encA <- encode artistName ;;
     encT <- encode trackTitle ;;
     let url := searchTrackUrl encA encT in
     response <- get Axios (audioDBSearchTrack W) url ;;
     match response with
     | Some {| track := Some (t :: _) |} =>
         match intTempo t with
         | Some tempo =>
             if truthyStr tempo then
               let n := Number tempo in
               ret (if doubleIsFinite n then Some n else None)
             else ret None
         | None => ret None
         end
     | _ => ret None
     end)
    (fun _ => ret None).

Definition getGenreFromSpotifyById (artistId : string) : M string :=
  try_catch
    (if negb (truthyStr artistId) || strictEq artistId "unknown" then ret Inconnu
     else
       let url := artistUrl artistId in
       response <- get AxiosSpotify (spotifyArtist W) url ;;
       let gs : list string :=
         match response with
         | Some {| artist_genres := Some l |} => l
         | _ => []
         end in
       match gs with
       | g :: _ => ret g
       | [] => ret Inconnu
       end)
    (fun _ => ret Inconnu).

Definition getGenreWithFallback (artistName : string) (artistId : option string)
    : M string :=
  fromAudioDB <- getGenreFromAudioDB artistName ;;
  if truthyStr fromAudioDB && negb (strictEq fromAudioDB Inconnu) then ret fromAudioDB
  else
    if truthyOptStr artistId then
      fromSpotify <- getGenreFromSpotifyById (default "" artistId) ;;
      if truthyStr fromSpotify && negb (strictEq fromSpotify Inconnu)
      then ret fromSpotify
      else ret Inconnu
    else ret Inconnu.

Definition formatDurationMs (ms : Nullable JSNum) : string :=
  if negb (truthyNullableNum ms) || negb (isFiniteV ms) then Inconnu
  else
    match ms with
    | Val (Fin z) =>
        let totalSec := floorDiv z 1000 in
        let minutes := floorDiv totalSec 60 in
        let seconds := remainder totalSec 60 in
        toString minutes ++ ":" ++ padStart 2 "0" (toString seconds)
    | _ => Inconnu
    end.

(** [track.durationMs && Number.isFinite(track.durationMs)
     ? Math.floor(track.durationMs / 1000) : undefined] *)
Definition durationSecondsOf (ms : Nullable JSNum) : option JSNum :=
  if truthyNullableNum ms && isFiniteV ms then
    match ms with
    | Val (Fin z) => Some (Fin (floorDiv z 1000))
    | _ => None
    end
  else None.

(** The object given to [records.push] for a track and its genre. *)
Definition makeRecord (t : Track) (genreName : string) : OutputRecord :=
  let durationSeconds := durationSecondsOf (durationMs t) in
  {| title := track_title t;
     r_artist := artist_name (artist t);
     r_album := album_title (album t);
     genre := genreName;
     duration := formatDurationMs (durationMs t);
     duration_seconds :=
       match durationSeconds with
       | Some n => IsNum n          (* [durationSeconds ?? ''] *)
       | None => IsStr ""
       end |}.

(** [track.artist.name || 'Inconnu'] and [track.artist.id || undefined] *)
Definition artistNameOf (t : Track) : string :=
  orStr (artist_name (artist t)) Inconnu.

Definition artistIdOf (t : Track) : option string :=
  if truthyStr (artist_id (artist t)) then Some (artist_id (artist t)) else None.

(** The body of [for (const track of tracks)]. *)
Definition processTrack (records : list OutputRecord) (t : Track)
    : M (list OutputRecord) :=
  let artistName := artistNameOf t in
  let artistId := artistIdOf t in
  genreName <- getGenreWithFallback artistName artistId ;;
  sleep 1000 ;;;
  ret (records ++ [makeRecord t genreName])%list.

Definition analyzePlaylist (fuel : nat) (PLAYLIST_ID : string) : M RunEnd :=
  if negb (truthyStr PLAYLIST_ID) then ret (Exited 1)
  else
    try_catch
      (tracks <- getPlaylistTracks fuel PLAYLIST_ID ;;
       records <- forOf processTrack tracks [] ;;
       writeRecords (sortRecords records) ;;;
       ret Completed)
      (fun _ => ret Completed).

End Script.
End Spotify.

(** ** Variant B: the Deezer script *)

Module Deezer.

(** What [getAudioDBInfo] returns: [{ genre }] (its [bpm] is never set). *)
Record AudioDBInfo : Type := { info_genre : string }.

Section Script.
Context `{Runtime}.
Variable W : World.
(** [process.env.THEAUDIODB_API_KEY || '1'] *)
Variable THEAUDIODB_API_KEY : string.

Definition playlistUrl (playlistId : string) : string :=
  "https://api.deezer.com/playlist/" ++ playlistId ++ "/tracks?limit=1000".

Definition getPlaylistTracks (playlistId : string) : M (list DeezerTrack) :=
  get Axios (deezerPlaylistTracks W) (playlistUrl playlistId).

Definition albumUrl (albumId : Z) : string :=
  "https://api.deezer.com/album/" ++ toString albumId.

(** [for (const genre of ...) { if (genre.name) genres.push(genre.name) }] *)
Fixpoint pushNames (acc : list string) (gs : list DeezerGenre) : list string :=
  match gs with
  | [] => acc
  | g :: rest =>
      match genre_name g with
      | Some n => if truthyStr n then pushNames (acc ++ [n])%list rest
                  else pushNames acc rest
      | None => pushNames acc rest
      end
  end.

Definition getDeezerAlbumInfo (albumId : Z) : M AlbumInfo :=
  has <- cacheHas albumId ;;
  if has : bool then
    cached <- cacheGet albumId ;;
    ret (default {| genres := [] |} cached)
  else
    try_catch
      (response <- get Axios (deezerAlbum W) (albumUrl albumId) ;;
       let gs : list string :=
         match response with
         | Some {| album_genres := Some {| genres_data := Some l |} |} =>
             pushNames [] l
         | _ => []
         end in
       let result := {| genres := gs |} in
       cacheSet albumId result ;;;
       ret result)
      (fun _ => ret {| genres := [] |}).

Definition searchUrl (enc : string) : string :=
  "https://theaudiodb.com/api/v1/json/" ++ THEAUDIODB_API_KEY
    ++ "/search.php?s=" ++ enc.

Definition getAudioDBInfo (artistName trackTitle : string) : M AudioDBInfo :=
  let info := {| info_genre := Inconnu |} in
  try_catch
    (enc <- encode artistName ;;
     let artistUrl := searchUrl enc in
     artistResponse <- get Axios (audioDBSearch W) artistUrl ;;
     match artistResponse with
     | Some {| artists := Some (a :: _) |} =>
         match strGenre a with
         | Some g => if truthyStr g then ret {| info_genre := g |} else ret info
         | None => ret info
         end
     | _ => ret info
     end)
    (fun _ => ret info).

Definition formatDuration (seconds : Nullable JSNum) : string :=
  if negb (truthyNullableNum seconds) || negb (isFiniteV seconds) then Inconnu
  else
    match seconds with
    | Val (Fin z) =>
        let minutes := floorDiv z 60 in
        let secs := remainder z 60 in
        toString minutes ++ ":" ++ padStart 2 "0" (toString secs)
    | _ => Inconnu
    end.

(** [if (albumId)] on [track.album?.id]. *)
Definition truthyId (albumId : option Z) : bool :=
  match albumId with Some z => negb (z =? 0) | None => false end.

(** The first half of the loop body: the genre from the album. *)
Definition genreFromAlbum (albumId : option Z) : M string :=
  if truthyId albumId then
    albumInfo <- getDeezerAlbumInfo (default 0 albumId) ;;
    if (0 <? length (genres albumInfo))%nat
    then ret (join ", " (genres albumInfo))
    else ret Inconnu
  else ret Inconnu.

(** The second half: TheAudioDB when the genre is still the placeholder. *)
Definition genreWithFallback (genreName artistName trackTitle : string) : M string :=
  if strictEq genreName Inconnu then
    audioDBInfo <- getAudioDBInfo artistName trackTitle ;;
    sleep 1000 ;;;
    ret (info_genre audioDBInfo)
  else ret genreName.

(** [track.artist?.name || 'Inconnu'], [track.title || 'Inconnu'] and
    [track.album?.id] *)
Definition artistNameOf (t : DeezerTrack) : string :=
  orStr (default "" (dt_artist t ≫= da_name)) Inconnu.

Definition trackTitleOf (t : DeezerTrack) : string :=
  orStr (default "" (dt_title t)) Inconnu.

Definition albumIdOf (t : DeezerTrack) : option Z := dt_album t ≫= dal_id.

(** The object given to [records.push] for a track and its genre. *)
Definition makeRecord (t : DeezerTrack) (genreName : string) : OutputRecord :=
  {| title := trackTitleOf t;
     r_artist := artistNameOf t;
     r_album := orStr (default "" (dt_album t ≫= dal_title)) Inconnu;
     genre := genreName;
     duration := formatDuration (dt_duration t);
     duration_seconds :=
       match dt_duration t with
       | Val n => IsNum n          (* [track.duration ?? ''] *)
       | _ => IsStr ""
       end |}.

(** The body of [for (const track of tracks)]. *)
Definition processTrack (records : list OutputRecord) (t : DeezerTrack)
    : M (list OutputRecord) :=
  genreName <- genreFromAlbum (albumIdOf t) ;;
  genreName <- genreWithFallback genreName (artistNameOf t) (trackTitleOf t) ;;
  ret (records ++ [makeRecord t genreName])%list.

Definition analyzePlaylist (PLAYLIST_ID : string) : M RunEnd :=
  if negb (truthyStr PLAYLIST_ID) then ret (Exited 1)
  else
    try_catch
      (tracks <- getPlaylistTracks PLAYLIST_ID ;;
       records <- forOf processTrack tracks [] ;;
       writeRecords (sortRecords records) ;;;
       ret Completed)
      (fun _ => ret Completed).

End Script.
End Deezer.

(** ** A small runtime for ASCII test data

    It agrees with the JavaScript built-ins on ASCII letters, on strings
    without reserved characters and on strings of decimal digits; the
    examples below are run with it. *)

Module TestRuntime.

Definition lowerAscii (c : ascii) : ascii :=
  let n := nat_of_ascii c in
  if ((65 <=? n) && (n <=? 90))%nat then ascii_of_nat (n + 32) else c.

Fixpoint lower (s : string) : string :=
  match s with
  | EmptyString => EmptyString
  | String c r => String (lowerAscii c) (lower r)
  end.

Definition decimal (s : string) : JSNum :=
  match NilEmpty.uint_of_string s with
  | Some u => Fin (Z.of_uint u)
  | None => NaN
  end.

Definition runtime : Runtime :=
  {| toLowerCase := lower;
     encodeURIComponent := fun s => Some s;
     double := JSNum;
     Number := decimal;
     doubleIsFinite := isFinite |}.

(** A world in which every request is rejected. *)
Definition offline : World :=
  {| spotifyPlaylistTracks := fun _ _ => None;
     spotifyArtist := fun _ _ => None;
     audioDBSearch := fun _ _ => None;
     audioDBSearchTrack := fun _ _ => None;
     deezerPlaylistTracks := fun _ _ => None;
     deezerAlbum := fun _ _ => None |}.

(** Test data: three pages of a Spotify playlist. *)
Definition item (name artistId artistName : string) : PlaylistItem :=
  {| item_track :=
       Some {| st_id := name;
               st_name := name;
               st_duration_ms := Val (Fin 65000);
               st_artists := Some [ {| sa_id := artistId; sa_name := artistName |} ];
               st_album := Some {| sal_id := "al"; sal_name := "Album" |} |} |}.

Definition bareItem : PlaylistItem :=
  {| item_track :=
       Some {| st_id := "t0"; st_name := "Bare"; st_duration_ms := Val (Fin 0);
               st_artists := None; st_album := None |} |}.

Definition noTrack : PlaylistItem := {| item_track := None |}.

Definition page1 : PlaylistPage :=
  {| items := [item "One" "a1" "Known"; noTrack; item "Two" "a2" "Other"];
     next := Some "https://page/2" |}.
Definition page2 : PlaylistPage :=
  {| items := [bareItem]; next := Some "https://page/3" |}.
Definition page3 : PlaylistPage :=
  {| items := [noTrack; item "Four" "a1" "Known"]; next := None |}.

Definition pagesOf (url : string) : option PlaylistPage :=
  if String.eqb url (Spotify.playlistUrl "PL") then Some page1
  else if String.eqb url "https://page/2" then Some page2
  else if String.eqb url "https://page/3" then Some page3
  else None.

(** Test data: a Deezer playlist of four tracks, two on the same album. *)
Definition deezerTrack (name artistName : string) (albumId : Z) (seconds : Z)
    : DeezerTrack :=
  {| dt_title := Some name;
     dt_artist := Some {| da_name := Some artistName |};
     dt_album := Some {| dal_id := Some albumId; dal_title := Some "Album" |};
     dt_duration := Val (Fin seconds) |}.

Definition bareDeezerTrack : DeezerTrack :=
  {| dt_title := None; dt_artist := None; dt_album := None;
     dt_duration := Undefined |}.

Definition deezerTracks : list DeezerTrack :=
  [deezerTrack "Song A" "Known" 7 65; deezerTrack "Song B" "Other" 7 0;
   bareDeezerTrack; deezerTrack "Song C" "Known" 9 180].

Definition albumWith (names : list (option string)) : option DeezerAlbum :=
  Some {| album_genres :=
            Some {| genres_data :=
                      Some (map (fun n => {| genre_name := n |}) names) |} |}.

Definition knownArtist (url : string) : option (option AudioDBArtists) :=
  if String.eqb url (Spotify.searchUrl "1" "Known")
  then Some (Some {| artists := Some [ {| strGenre := Some "Rock" |} ] |})
  else Some (Some {| artists := None |}).

(** A world in which every provider answers. *)
Definition online : World :=
  {| spotifyPlaylistTracks := fun _ url => pagesOf url;
     spotifyArtist := fun _ url =>
       if String.eqb url (Spotify.artistUrl "a2")
       then Some (Some {| artist_genres := Some ["indie"; "folk"] |})
       else None;
     audioDBSearch := fun _ url => knownArtist url;
     audioDBSearchTrack := fun _ url =>
       if String.eqb url (Spotify.searchTrackUrl "1" "Known" "One")
       then Some (Some {| track := Some [ {| intTempo := Some "120" |} ] |})
       else Some None;
     deezerPlaylistTracks := fun _ url =>
       if String.eqb url (Deezer.playlistUrl "PL") then Some deezerTracks else None;
     deezerAlbum := fun _ url =>
       if String.eqb url (Deezer.albumUrl 7)
       then Some (albumWith [Some "Pop"; None; Some "Rock"])
       else None |}.

(** The playlists are served, every enrichment request is rejected. *)
Definition enrichmentDown : World :=
  {| spotifyPlaylistTracks := fun _ url => pagesOf url;
     spotifyArtist := fun _ _ => None;
     audioDBSearch := fun _ _ => None;
     audioDBSearchTrack := fun _ _ => None;
     deezerPlaylistTracks := fun _ url =>
       if String.eqb url (Deezer.playlistUrl "PL") then Some deezerTracks else None;
     deezerAlbum := fun _ _ => None |}.

(** The album endpoint rejects the very first request and answers later. *)
Definition flaky : World :=
  {| spotifyPlaylistTracks := fun _ _ => None;
     spotifyArtist := fun _ _ => None;
     audioDBSearch := fun _ _ => None;
     audioDBSearchTrack := fun _ _ => None;
     deezerPlaylistTracks := fun _ _ => None;
     deezerAlbum := fun t _ =>
       if (t =? 0)%nat then None else Some (albumWith [Some "Pop"]) |}.

(** Every album has the single genre named like the placeholder. *)
Definition placeholderGenre : World :=
  {| spotifyPlaylistTracks := fun _ _ => None;
     spotifyArtist := fun _ _ => None;
     audioDBSearch := fun _ url => knownArtist url;
     audioDBSearchTrack := fun _ _ => None;
     deezerPlaylistTracks := fun _ _ => None;
     deezerAlbum := fun _ _ => Some (albumWith [Some "Inconnu"]) |}.

End TestRuntime.

(** ** Reading the answers of the providers

    These functions are not in the scripts; the properties are stated with
    them. Each says what an answer holds, [None] when the request was
    rejected or the field is missing. *)

(** The genre of the first artist in an answer of [search.php]. *)
Definition firstArtistGenre (r : option (option AudioDBArtists)) : option string :=
  match r with
  | Some (Some d) =>
      match artists d with
      | Some (a :: _) => strGenre a
      | _ => None
      end
  | _ => None
  end.

(** The tempo of the first track in an answer of [searchtrack.php]. *)
Definition firstTempo (r : option (option AudioDBTracks)) : option string :=
  match r with
  | Some (Some d) =>
      match track d with
      | Some (t :: _) => intTempo t
      | _ => None
      end
  | _ => None
  end.

(** The first genre tag in an answer of Spotify's artist endpoint. *)
Definition firstTag (r : option (option SpotifyArtist)) : option string :=
  match r with
  | Some (Some d) =>
      match artist_genres d with
      | Some (g :: _) => Some g
      | _ => None
      end
  | _ => None
  end.

(** The string the scripts make of an optional genre. *)
Definition orInconnu (o : option string) : string :=
  match o with
  | Some g => if truthyStr g then g else Inconnu
  | None => Inconnu
  end.

(** The genre names in an answer of Deezer's album endpoint. *)
Definition nameOf (g : DeezerGenre) : option string :=
  match genre_name g with
  | Some n => if truthyStr n then Some n else None
  | None => None
  end.

Definition albumGenreNames (r : option DeezerAlbum) : list string :=
  match r with
  | Some d =>
      match album_genres d with
      | Some gs =>
          match genres_data gs with
          | Some l => omap nameOf l
          | None => []
          end
      | None => []
      end
  | None => []
  end.

(** A usable genre: not empty and not the placeholder. *)
Definition usable (g : string) : bool :=
  truthyStr g && negb (strictEq g Inconnu).

(** The usable genre of an answer, if it has one. *)
Definition usableGenre (o : option string) : option string :=
  match o with
  | Some g => if usable g then Some g else None
  | None => None
  end.

(** The fallback order of the specification: the primary provider's usable
    genre; else, when an artist identifier is supplied, the secondary
    provider's usable first tag; else the placeholder. *)
Definition resolveGenre_spec (primary : option string) (artistId : option string)
    (secondary : option string) : string :=
  match usableGenre primary with
  | Some g => g
  | None =>
      match artistId with
      | Some id =>
          if truthyStr id then
            match usableGenre secondary with
            | Some t => t
            | None => Inconnu
            end
          else Inconnu
      | None => Inconnu
      end
  end.

Section Answers.
Context `{Runtime}.
Variable W : World.
Variable KEY : string.

(** The answers the two providers give to [getGenreWithFallback] when it
    starts in state [s]: the primary one at the current clock, the
    secondary one after it. *)
Definition primaryAnswer (artistName : string) (s : State)
    : option (option AudioDBArtists) :=
  match encodeURIComponent artistName with
  | Some enc => audioDBSearch W (length (trace s)) (Spotify.searchUrl KEY enc)
  | None => None
  end.

Definition secondaryAnswer (artistName : string) (artistId : option string)
    (s : State) : option (option SpotifyArtist) :=
  match artistId with
  | Some id =>
      if strictEq id "unknown" then None
      else
        let t1 := match encodeURIComponent artistName with
                  | Some _ => S (length (trace s))
                  | None => length (trace s)
                  end in
        spotifyArtist W t1 (Spotify.artistUrl id)
  | None => None
  end.

(** The answer [getTrackBpmFromAudioDB] gets when it starts in state [s]. *)
Definition tempoAnswer (artistName trackTitle : string) (s : State)
    : option (option AudioDBTracks) :=
  match encodeURIComponent artistName, encodeURIComponent trackTitle with
  | Some encA, Some encT =>
      audioDBSearchTrack W (length (trace s)) (Spotify.searchTrackUrl KEY encA encT)
  | _, _ => None
  end.

(** The answer [getDeezerAlbumInfo] gets on a cache miss in state [s]. *)
Definition albumAnswer (albumId : Z) (s : State) : option (option DeezerAlbum) :=
  deezerAlbum W (length (trace s)) (Deezer.albumUrl albumId).

End Answers.

(** ** Runs

    [steps s evs s'] says that [s'] is [s] after the events [evs]: the CSV
    file is untouched and no cache entry was removed or changed. [cacheOk]
    says that every cached genre name is a non-empty string. *)

Definition steps (s : State) (evs : list Event) (s' : State) : Prop :=
  trace s' = (trace s ++ evs)%list
  /\ csvFile s' = csvFile s
  /\ albumCache s ⊆ albumCache s'.

Definition cacheOk (s : State) : Prop :=
  forall k info, albumCache s !! k = Some info ->
                 Forall (fun n : string => n <> "") (genres info).

(** ** Pages of a playlist

    [serves W t url pages]: from clock [t] on, the world answers the request
    for [url] with the first page, whose [next] leads to the second page, and
    so on; the [next] of the last page is null or empty. *)

Fixpoint serves (W : World) (t : nat) (url : string) (pages : list PlaylistPage)
    : Prop :=
  match pages with
  | [] => False
  | p :: rest =>
      spotifyPlaylistTracks W t url = Some p /\
      match rest with
      | [] => truthyOptStr (next p) = false
      | _ :: _ =>
          exists u, next p = Some u /\ truthyStr u = true /\ serves W (S t) u rest
      end
  end.

(** The URLs requested for the pages: the first one, then each [next]. *)
Fixpoint pageUrls (url : string) (pages : list PlaylistPage) : list string :=
  match pages with
  | [] => []
  | p :: rest => url :: pageUrls (default "" (next p)) rest
  end.

(** All items of all pages in order, those without a track dropped, each
    mapped to a [Track]. *)
Definition tracksOf (pages : list PlaylistPage) : list Track :=
  map Spotify.mapTrack (omap item_track (concat (map items pages))).

(** ** The scripts as they are started

    The top level of each file reads the environment, checks it, and calls
    [analyzePlaylist]. *)

Record Env : Type := {
  SPOTIFY_PLAYLIST_ID : option string;
  SPOTIFY_TOKEN : option string;
  DEEZER_PLAYLIST_ID : option string;
  THEAUDIODB_API_KEY : option string
}.

(** [process.env.X || d] *)
Definition envOr (v : option string) (d : string) : string :=
  orStr (default "" v) d.

(** [src/index.ts] from its first line to the call of [analyzePlaylist]. *)
Definition spotifyScript `{Runtime} (W : World) (env : Env) (fuel : nat) : M RunEnd :=
  let PLAYLIST_ID := envOr (SPOTIFY_PLAYLIST_ID env) "" in
  if negb (truthyOptStr (SPOTIFY_TOKEN env)) then ret (Exited 1)
  else
    let KEY := envOr (THEAUDIODB_API_KEY env) "1" in
    Spotify.analyzePlaylist W KEY fuel PLAYLIST_ID.

(** The Deezer file from its first line to the call of [analyzePlaylist]. *)
Definition deezerScript `{Runtime} (W : World) (env : Env) : M RunEnd :=
  let PLAYLIST_ID := envOr (DEEZER_PLAYLIST_ID env) "" in
  let KEY := envOr (THEAUDIODB_API_KEY env) "1" in
  Deezer.analyzePlaylist W KEY PLAYLIST_ID.

(** ** More ways to describe a world and a run *)

(** [servesUntilRejected W t url pages]: the world answers with the pages
    one after the other, each leading to the next, and rejects the request
    that follows the last of them. *)
Fixpoint servesUntilRejected (W : World) (t : nat) (url : string)
    (pages : list PlaylistPage) : Prop :=
  match pages with
  | [] => spotifyPlaylistTracks W t url = None
  | p :: rest =>
      spotifyPlaylistTracks W t url = Some p /\
      exists u, next p = Some u /\ truthyStr u = true
                /\ servesUntilRejected W (S t) u rest
  end.

(** The URL that follows the last of the pages. *)
Fixpoint lastUrl (url : string) (pages : list PlaylistPage) : string :=
  match pages with
  | [] => url
  | p :: rest => lastUrl (default "" (next p)) rest
  end.

(** A record without its genre: the columns that come from the track. *)
Definition eraseGenre (r : OutputRecord) : OutputRecord :=
  {| title := title r;
     r_artist := r_artist r;
     r_album := r_album r;
     genre := "";
     duration := duration r;
     duration_seconds := duration_seconds r |}.

Section Requests.
Context `{Runtime}.
Variable W : World.
Variable KEY : string.

(** The request for the genre of an artist, when the name can be encoded. *)
Definition primaryRequest (artistName : string) : list Event :=
  match encodeURIComponent artistName with
  | Some enc => [Get Axios (Spotify.searchUrl KEY enc)]
  | None => []
  end.

(** Whether the genre fallback has to ask Spotify: TheAudioDB gave no
    usable genre, and there is an artist identifier other than the
    placeholder. *)
Definition needsSecondary (artistName : string) (artistId : option string)
    (s : State) : bool :=
  match usableGenre (firstArtistGenre (primaryAnswer W KEY artistName s)) with
  | Some _ => false
  | None => truthyOptStr artistId && negb (strictEq (default "" artistId) "unknown")
  end.

(** The requests of one genre lookup with fallback. *)
Definition fallbackRequests (artistName : string) (artistId : option string)
    (s : State) : list Event :=
  (primaryRequest artistName ++
   if needsSecondary artistName artistId s
   then [Get AxiosSpotify (Spotify.artistUrl (default "" artistId))]
   else [])%list.

End Requests.

(** * Properties *)

(** ** Built-ins *)

Example toString_65 : toString 65 = "65".
Proof. reflexivity. Qed.

Example toString_neg : toString (-5) = "-5".
Proof. reflexivity. Qed.

Example padStart_5 : padStart 2 "0" "5" = "05".
Proof. reflexivity. Qed.

Example padStart_12 : padStart 2 "0" "12" = "12".
Proof. reflexivity. Qed.

Example join_two : join ", " ["Rock"; "Pop"] = "Rock, Pop".
Proof. reflexivity. Qed.

Example lower_Pop : TestRuntime.lower "Pop" = "pop".
Proof. reflexivity. Qed.

(** A number of seconds between 0 and 59 prints as exactly two characters. *)
Lemma padStart_two_digits (n : Z) :
  0 <= n < 60 -> String.length (padStart 2 "0" (toString n)) = 2%nat.
Proof.
  intros Hn.
  assert (Hall : forallb
            (fun k => (String.length (padStart 2 "0" (toString (Z.of_nat k))) =? 2)%nat)
            (seq 0 60) = true) by (vm_compute; reflexivity).
  rewrite forallb_forall in Hall.
  specialize (Hall (Z.to_nat n)).
  rewrite Z2Nat.id in Hall by lia.
  apply Nat.eqb_eq, Hall, in_seq. lia.
Qed.

(** ** Duration formatting *)

Example formatDurationMs_65000 : Spotify.formatDurationMs (Val (Fin 65000)) = "1:05".
Proof. reflexivity. Qed.

Example formatDurationMs_500 : Spotify.formatDurationMs (Val (Fin 500)) = "0:00".
Proof. reflexivity. Qed.

Example formatDurationMs_0 : Spotify.formatDurationMs (Val (Fin 0)) = "Inconnu".
Proof. reflexivity. Qed.

Example formatDuration_65 : Deezer.formatDuration (Val (Fin 65)) = "1:05".
Proof. reflexivity. Qed.

Example formatDuration_3600 : Deezer.formatDuration (Val (Fin 3600)) = "60:00".
Proof. reflexivity. Qed.

(** On a non-zero integer the millisecond formatter only looks at the
    whole seconds. *)
Lemma formatDurationMs_Fin (z : Z) :
  z <> 0 ->
  Spotify.formatDurationMs (Val (Fin z)) =
    toString (floorDiv (floorDiv z 1000) 60) ++ ":" ++
    padStart 2 "0" (toString (remainder (floorDiv z 1000) 60)).
Proof.
  intros Hz. unfold Spotify.formatDurationMs. simpl.
  destruct (Z.eqb_spec z 0); [contradiction | reflexivity].
Qed.

Lemma formatDuration_Fin (z : Z) :
  z <> 0 ->
  Deezer.formatDuration (Val (Fin z)) =
    toString (floorDiv z 60) ++ ":" ++ padStart 2 "0" (toString (remainder z 60)).
Proof.
  intros Hz. unfold Deezer.formatDuration. simpl.
  destruct (Z.eqb_spec z 0); [contradiction | reflexivity].
Qed.

(** Zero milliseconds and 500 milliseconds are both zero whole seconds, yet
    the first is printed as the placeholder and the second as a time: the
    formatter is not a function of the whole seconds alone. *)
Lemma formatDurationMs_zero_vs_500 :
  floorDiv 0 1000 = floorDiv 500 1000 /\
  Spotify.formatDurationMs (Val (Fin 0)) = "Inconnu" /\
  Spotify.formatDurationMs (Val (Fin 500)) = "0:00" /\
  Spotify.formatDurationMs (Val (Fin 0)) <> Spotify.formatDurationMs (Val (Fin 500)).
Proof. repeat split; try reflexivity. discriminate. Qed.

(** C6 (amended): two non-zero millisecond counts with the same whole seconds
    are formatted identically by the Spotify script; absent, null, NaN and
    infinite inputs give the placeholder in both scripts; 65000 ms and 65 s
    both print as 1:05; and for a positive input the part after the colon has
    exactly two characters. *)
Theorem formatDuration_whole_seconds (a b : Z) :
  a <> 0 -> b <> 0 -> floorDiv a 1000 = floorDiv b 1000 ->
  Spotify.formatDurationMs (Val (Fin a)) = Spotify.formatDurationMs (Val (Fin b))
  /\ (forall v, In v [Undefined; Null; Val NaN; Val PosInfinity; Val NegInfinity] ->
        Spotify.formatDurationMs v = Inconnu /\ Deezer.formatDuration v = Inconnu)
  /\ Spotify.formatDurationMs (Val (Fin 65000)) = "1:05"
  /\ Deezer.formatDuration (Val (Fin 65)) = "1:05"
  /\ (forall z, 0 < z ->
        (exists sec, Spotify.formatDurationMs (Val (Fin z)) =
                       toString (floorDiv (floorDiv z 1000) 60) ++ ":" ++ sec
                     /\ String.length sec = 2%nat)
        /\ (exists sec, Deezer.formatDuration (Val (Fin z)) =
                          toString (floorDiv z 60) ++ ":" ++ sec
                        /\ String.length sec = 2%nat)).
Proof.
  intros Ha Hb Hab. split; [| split; [| split; [| split]]].
  - rewrite !formatDurationMs_Fin by assumption. now rewrite Hab.
  - intros v Hv. simpl in Hv.
    repeat destruct Hv as [<- | Hv]; try contradiction; split; reflexivity.
  - reflexivity.
  - reflexivity.
  - intros z Hz. split.
    + eexists. split; [apply formatDurationMs_Fin; lia |].
      apply padStart_two_digits. unfold remainder, floorDiv.
      assert (0 <= z / 1000) by (apply Z.div_pos; lia).
      rewrite Z.rem_mod_nonneg by lia. apply Z.mod_pos_bound. lia.
    + eexists. split; [apply formatDuration_Fin; lia |].
      apply padStart_two_digits. unfold remainder.
      rewrite Z.rem_mod_nonneg by lia. apply Z.mod_pos_bound. lia.
Qed.

Lemma formatDuration_whole_seconds_witness :
  Spotify.formatDurationMs (Val (Fin 65000)) = Spotify.formatDurationMs (Val (Fin 65999)).
Proof.
  apply (formatDuration_whole_seconds 65000 65999); [lia | lia | reflexivity].
Defined.

(** ** The effect monad *)

Lemma addEvents_nil (s : State) : addEvents s [] = s.
Proof. destruct s. unfold addEvents. simpl. now rewrite app_nil_r. Qed.

Lemma addEvents_app (s : State) (a b : list Event) :
  addEvents (addEvents s a) b = addEvents s (a ++ b).
Proof. unfold addEvents. simpl. now rewrite app_assoc. Qed.

Lemma get_run {A} (c : Client) (oracle : nat -> string -> option A) (url : string)
    (s : State) :
  get c oracle url s =
    (match oracle (length (trace s)) url with
     | Some a => Ok a
     | None => Throw (RequestError url)
     end, addEvents s [Get c url]).
Proof.
  unfold get, bind, now, emit. simpl.
  destruct (oracle (length (trace s)) url); reflexivity.
Qed.

(** ** Variant A: what each enrichment call does *)

Section SpotifyCalls.
Context `{Runtime}.
Variable W : World.
Variable KEY : string.

Lemma getGenreFromAudioDB_run (artistName : string) (s : State) :
  Spotify.getGenreFromAudioDB W KEY artistName s =
    match encodeURIComponent artistName with
    | None => (Ok Inconnu, s)
    | Some enc =>
        (Ok (orInconnu (firstArtistGenre
               (audioDBSearch W (length (trace s)) (Spotify.searchUrl KEY enc)))),
         addEvents s [Get Axios (Spotify.searchUrl KEY enc)])
    end.
Proof.
  unfold Spotify.getGenreFromAudioDB, try_catch, bind, encode.
  destruct (encodeURIComponent artistName) as [enc |]; simpl; [| reflexivity].
  rewrite get_run.
  destruct (audioDBSearch W _ _) as [[[[[| a l] |]] |] |]; simpl; try reflexivity.
  destruct (strGenre a) as [g |]; simpl; [| reflexivity].
  destruct (truthyStr g); reflexivity.
Qed.

Lemma getTrackBpmFromAudioDB_run (artistName trackTitle : string) (s : State) :
  Spotify.getTrackBpmFromAudioDB W KEY artistName trackTitle s =
    match encodeURIComponent artistName, encodeURIComponent trackTitle with
    | Some encA, Some encT =>
        let url := Spotify.searchTrackUrl KEY encA encT in
        (Ok match firstTempo (audioDBSearchTrack W (length (trace s)) url) with
            | Some tempo =>
                if truthyStr tempo && doubleIsFinite (Number tempo)
                then Some (Number tempo) else None
            | None => None
            end,
         addEvents s [Get Axios url])
    | _, _ => (Ok None, s)
    end.
Proof.
  unfold Spotify.getTrackBpmFromAudioDB, try_catch, bind, encode.
  destruct (encodeURIComponent artistName) as [encA |]; simpl; [| reflexivity].
  destruct (encodeURIComponent trackTitle) as [encT |]; simpl; [| reflexivity].
  rewrite get_run.
  destruct (audioDBSearchTrack W _ _) as [[[[[| t l] |]] |] |]; simpl; try reflexivity.
  destruct (intTempo t) as [tempo |]; simpl; [| reflexivity].
  destruct (truthyStr tempo); simpl; [| reflexivity].
  destruct (doubleIsFinite (Number tempo)); reflexivity.
Qed.

Lemma getGenreFromSpotifyById_run (artistId : string) (s : State) :
  Spotify.getGenreFromSpotifyById W artistId s =
    if negb (truthyStr artistId) || strictEq artistId "unknown" then (Ok Inconnu, s)
    else
      (Ok (default Inconnu
             (firstTag (spotifyArtist W (length (trace s)) (Spotify.artistUrl artistId)))),
       addEvents s [Get AxiosSpotify (Spotify.artistUrl artistId)]).
Proof.
  unfold Spotify.getGenreFromSpotifyById, try_catch, bind.
  destruct (negb (truthyStr artistId) || strictEq artistId "unknown"); simpl;
    [reflexivity |].
  rewrite get_run.
  destruct (spotifyArtist W _ _) as [[[[[| g l] |]] |] |]; reflexivity.
Qed.


Lemma usable_nonempty (g : string) : usable g = true -> g <> "".
Proof. unfold usable. destruct g; [discriminate | discriminate]. Qed.

Lemma usableGenre_orInconnu (o : option string) :
  usableGenre o = if usable (orInconnu o) then Some (orInconnu o) else None.
Proof.
  destruct o as [g |]; simpl; [| reflexivity].
  unfold usable at 1. destruct (truthyStr g) eqn:Hg; simpl.
  - unfold usable. rewrite Hg. reflexivity.
  - reflexivity.
Qed.

Lemma usableGenre_default (o : option string) :
  usableGenre o = if usable (default Inconnu o) then Some (default Inconnu o) else None.
Proof. destruct o as [g |]; reflexivity. Qed.

Lemma resolveGenre_spec_nonempty (p id q : option string) :
  resolveGenre_spec p id q <> "".
Proof.
  unfold resolveGenre_spec, usableGenre.
  destruct p as [g |].
  - destruct (usable g) eqn:Hg; [now apply usable_nonempty |].
    destruct id as [i |]; [| discriminate].
    destruct (truthyStr i); [| discriminate].
    destruct q as [t |]; [| discriminate].
    destruct (usable t) eqn:Ht; [now apply usable_nonempty | discriminate].
  - destruct id as [i |]; [| discriminate].
    destruct (truthyStr i); [| discriminate].
    destruct q as [t |]; [| discriminate].
    destruct (usable t) eqn:Ht; [now apply usable_nonempty | discriminate].
Qed.

(** [getGenreWithFallback] always returns; its result is the one of the
    fallback order, and all it does is issue at most two requests. *)
Lemma getGenreWithFallback_run (artistName : string) (artistId : option string)
    (s : State) :
  exists evs,
    Spotify.getGenreWithFallback W KEY artistName artistId s =
      (Ok (resolveGenre_spec
             (firstArtistGenre (primaryAnswer W KEY artistName s)) artistId
             (firstTag (secondaryAnswer W artistName artistId s))),
       addEvents s evs)
    /\ Forall (fun ev => isGet ev = true) evs
    /\ (length evs <= 2)%nat.
Proof.
  unfold Spotify.getGenreWithFallback, bind, resolveGenre_spec,
    primaryAnswer, secondaryAnswer.
  rewrite getGenreFromAudioDB_run.
  destruct (encodeURIComponent artistName) as [enc |].
  - set (p := firstArtistGenre _).
    rewrite (usableGenre_orInconnu p). fold (usable (orInconnu p)).
    destruct (usable (orInconnu p)) eqn:Hp.
    + eexists. split; [reflexivity |]. split; [repeat constructor | simpl; lia].
    + destruct artistId as [id |]; simpl.
      * destruct (truthyStr id) eqn:Hid.
        -- rewrite getGenreFromSpotifyById_run. rewrite Hid. simpl.
           destruct (strictEq id "unknown") eqn:Hu.
           ++ simpl. eexists. split; [reflexivity |].
              split; [repeat constructor | simpl; lia].
           ++ simpl. rewrite length_app, Nat.add_1_r. simpl.
              set (q := firstTag _).
              rewrite (usableGenre_default q). fold (usable (default Inconnu q)).
              rewrite addEvents_app.
              destruct (usable (default Inconnu q)); eexists;
                (split; [reflexivity |]);
                (split; [repeat constructor | simpl; lia]).
        -- eexists. split; [reflexivity |].
           split; [repeat constructor | simpl; lia].
      * eexists. split; [reflexivity |].
        split; [repeat constructor | simpl; lia].
  - change (usableGenre (firstArtistGenre None)) with (@None string).
    replace (truthyStr Inconnu && negb (strictEq Inconnu Inconnu)) with false
      by reflexivity.
    destruct artistId as [id |]; simpl.
    + destruct (truthyStr id) eqn:Hid.
      * rewrite getGenreFromSpotifyById_run. rewrite Hid. simpl.
        destruct (strictEq id "unknown") eqn:Hu.
        -- simpl. exists []. rewrite addEvents_nil.
           split; [reflexivity |]. split; [constructor | simpl; lia].
        -- simpl. set (q := firstTag _).
           rewrite (usableGenre_default q). fold (usable (default Inconnu q)).
           destruct (usable (default Inconnu q)); eexists;
             (split; [reflexivity |]);
             (split; [repeat constructor | simpl; lia]).
      * exists []. rewrite addEvents_nil.
        split; [reflexivity |]. split; [constructor | simpl; lia].
    + exists []. rewrite addEvents_nil.
      split; [reflexivity |]. split; [constructor | simpl; lia].
Qed.

End SpotifyCalls.

(** ** Variant B: what each enrichment call does *)

Section DeezerCalls.
Context `{Runtime}.
Variable W : World.
Variable KEY : string.

Lemma pushNames_omap (acc : list string) (gs : list DeezerGenre) :
  Deezer.pushNames acc gs = (acc ++ omap nameOf gs)%list.
Proof.
  revert acc. induction gs as [| g gs IH]; intros acc; simpl.
  - now rewrite app_nil_r.
  - unfold nameOf at 1. destruct (genre_name g) as [n |]; [| apply IH].
    destruct (truthyStr n); [| apply IH].
    rewrite IH, <- app_assoc. reflexivity.
Qed.

(** A cache hit returns the stored value and does nothing else; a miss
    issues one request, and stores the result only if the request was
    answered. *)
Lemma getDeezerAlbumInfo_run (albumId : Z) (s : State) :
  Deezer.getDeezerAlbumInfo W albumId s =
    match albumCache s !! albumId with
    | Some info => (Ok info, s)
    | None =>
        let s1 := addEvents s [Get Axios (Deezer.albumUrl albumId)] in
        match deezerAlbum W (length (trace s)) (Deezer.albumUrl albumId) with
        | Some r =>
            let result := {| genres := albumGenreNames r |} in
            (Ok result, withCache s1 albumId result)
        | None => (Ok {| genres := [] |}, s1)
        end
    end.
Proof.
  unfold Deezer.getDeezerAlbumInfo, bind, cacheHas, cacheGet, try_catch.
  destruct (albumCache s !! albumId) as [info |] eqn:Hc.
  - rewrite bool_decide_eq_true_2 by eauto.
    cbv beta iota. rewrite Hc. reflexivity.
  - rewrite bool_decide_eq_false_2 by (intros [? ?]; discriminate).
    cbv beta iota. rewrite get_run.
    destruct (deezerAlbum W _ _) as [r |]; simpl; [| reflexivity].
    unfold cacheSet, ret. f_equal.
    + f_equal. f_equal.
      destruct r as [[[[[l |]] |]] |]; simpl; try reflexivity.
      apply pushNames_omap.
    + f_equal. f_equal.
      destruct r as [[[[[l |]] |]] |]; simpl; try reflexivity.
      apply pushNames_omap.
Qed.

Lemma getAudioDBInfo_run (artistName trackTitle : string) (s : State) :
  Deezer.getAudioDBInfo W KEY artistName trackTitle s =
    match encodeURIComponent artistName with
    | None => (Ok {| Deezer.info_genre := Inconnu |}, s)
    | Some enc =>
        (Ok {| Deezer.info_genre :=
                 orInconnu (firstArtistGenre
                   (audioDBSearch W (length (trace s)) (Deezer.searchUrl KEY enc))) |},
         addEvents s [Get Axios (Deezer.searchUrl KEY enc)])
    end.
Proof.
  unfold Deezer.getAudioDBInfo, try_catch, bind, encode.
  destruct (encodeURIComponent artistName) as [enc |]; simpl; [| reflexivity].
  rewrite get_run.
  destruct (audioDBSearch W _ _) as [[[[[| a l] |]] |] |]; simpl; try reflexivity.
  destruct (strGenre a) as [g |]; simpl; [| reflexivity].
  destruct (truthyStr g); reflexivity.
Qed.

End DeezerCalls.

(** ** The order on strings *)

Lemma ascii_compare_lt (a b : ascii) :
  Ascii.compare a b = Lt <-> (N_of_ascii a < N_of_ascii b)%N.
Proof. unfold Ascii.compare. apply N.compare_lt_iff. Qed.

Lemma string_compare_refl (a : string) : String.compare a a = Eq.
Proof.
  induction a as [| c a IH]; simpl; [reflexivity |].
  unfold Ascii.compare. now rewrite N.compare_refl.
Qed.

Lemma string_compare_lt_trans (a b c : string) :
  String.compare a b = Lt -> String.compare b c = Lt -> String.compare a c = Lt.
Proof.
  revert b c. induction a as [| x a IH]; intros [| y b] [| z c]; simpl;
    try discriminate; try reflexivity.
  destruct (Ascii.compare x y) eqn:Hxy; try discriminate;
    destruct (Ascii.compare y z) eqn:Hyz; try discriminate; intros Hab Hbc.
  - apply Ascii.compare_eq_iff in Hxy, Hyz. subst.
    unfold Ascii.compare. rewrite N.compare_refl. eauto.
  - apply Ascii.compare_eq_iff in Hxy. subst. now rewrite Hyz.
  - apply Ascii.compare_eq_iff in Hyz. subst. now rewrite Hxy.
  - apply ascii_compare_lt in Hxy. apply ascii_compare_lt in Hyz.
    assert (Hxz : Ascii.compare x z = Lt)
      by (apply ascii_compare_lt; eapply N.lt_trans; eassumption).
    now rewrite Hxz.
Qed.

Lemma str_lt_trans (a b c : string) : str_lt a b -> str_lt b c -> str_lt a c.
Proof.
  unfold str_lt, String.ltb. intros Hab Hbc.
  destruct (String.compare a b) eqn:E1; try discriminate.
  destruct (String.compare b c) eqn:E2; try discriminate.
  now rewrite (string_compare_lt_trans a b c).
Qed.

Lemma str_lt_irrefl (a : string) : ~ str_lt a a.
Proof. unfold str_lt, String.ltb. now rewrite string_compare_refl. Qed.

(** Neither [a < b] nor [b < a]: the strings are equal. *)
Lemma ltb_false_eq (a b : string) :
  (a <? b)%string = false -> (b <? a)%string = false -> a = b.
Proof.
  unfold String.ltb. rewrite (String.compare_antisym b a).
  destruct (String.compare a b) eqn:E; simpl; intros H1 H2;
    try discriminate. now apply String.compare_eq_iff.
Qed.

Lemma str_lt_asym (a b : string) : str_lt a b -> (b <? a)%string = false.
Proof.
  unfold str_lt, String.ltb. rewrite (String.compare_antisym b a).
  destruct (String.compare a b); simpl; try discriminate. reflexivity.
Qed.

(** ** Stable insertion by a comparator *)

Lemma StronglySorted_weaken {A} (R R' : A -> A -> Prop) (l : list A) :
  (forall a b, R a b -> R' a b) -> StronglySorted R l -> StronglySorted R' l.
Proof.
  intros HR. induction 1 as [| x l Hs IH Hx]; constructor; [assumption |].
  eapply Forall_impl; [exact Hx | auto].
Qed.

Section InsertionSort.
Context {A : Type} (cmp : A -> A -> Z).

Lemma insertBy_perm (x : A) (l : list A) : Permutation (insertBy cmp x l) (x :: l).
Proof.
  induction l as [| y l IH]; simpl; [reflexivity |].
  destruct (cmp x y <=? 0); [reflexivity |].
  rewrite IH. apply perm_swap.
Qed.

Lemma sortBy_perm (l : list A) : Permutation (sortBy cmp l) l.
Proof.
  induction l as [| x l IH]; simpl; [reflexivity |].
  rewrite insertBy_perm. now constructor.
Qed.

Section Sorted.
Hypothesis cmp_total : forall x y, cmp x y <= 0 \/ cmp y x <= 0.
Hypothesis cmp_trans : forall x y z, cmp x y <= 0 -> cmp y z <= 0 -> cmp x z <= 0.

Lemma insertBy_sorted (x : A) (l : list A) :
  StronglySorted (fun a b => cmp a b <= 0) l ->
  StronglySorted (fun a b => cmp a b <= 0) (insertBy cmp x l).
Proof.
  induction 1 as [| y l Hs IH Hy]; simpl.
  - repeat constructor.
  - destruct (Z.leb_spec (cmp x y) 0) as [Hle | Hgt].
    + constructor; [now constructor |].
      constructor; [assumption |].
      eapply Forall_impl; [exact Hy |]. intros z Hz. simpl in *. eauto.
    + constructor; [assumption |].
      eapply Permutation_Forall; [symmetry; apply insertBy_perm |].
      constructor; [| assumption].
      destruct (cmp_total x y); [lia | assumption].
Qed.

Lemma sortBy_sorted (l : list A) :
  StronglySorted (fun a b => cmp a b <= 0) (sortBy cmp l).
Proof.
  induction l as [| x l IH]; simpl; [constructor |].
  now apply insertBy_sorted.
Qed.
End Sorted.

(** Insertion never moves an element past one it compares equal to. *)
Section Stable.
Context {K : Type} `{EqDecision K} (key : A -> K).
Hypothesis cmp_key : forall x y, key x = key y -> cmp x y <= 0.

Lemma insertBy_filter (k : K) (x : A) (l : list A) :
  List.filter (fun a => bool_decide (key a = k)) (insertBy cmp x l) =
  List.filter (fun a => bool_decide (key a = k)) (x :: l).
Proof.
  induction l as [| y l IH]; [reflexivity |].
  cbn [insertBy]. destruct (Z.leb_spec (cmp x y) 0) as [Hle | Hgt];
    [reflexivity |].
  assert (Hne : key x <> key y) by (intros E; specialize (cmp_key _ _ E); lia).
  cbn [List.filter] in *. rewrite IH.
  destruct (bool_decide_reflect (key y = k)) as [Hy | Hy];
    destruct (bool_decide_reflect (key x = k)) as [Hx | Hx];
    try reflexivity.
  congruence.
Qed.

Lemma sortBy_filter (k : K) (l : list A) :
  List.filter (fun a => bool_decide (key a = k)) (sortBy cmp l) =
  List.filter (fun a => bool_decide (key a = k)) l.
Proof.
  induction l as [| x l IH]; [reflexivity |].
  cbn [sortBy fold_right]. fold (sortBy cmp l).
  rewrite insertBy_filter. cbn [List.filter]. now rewrite IH.
Qed.
End Stable.

End InsertionSort.

(** ** The report sort *)

Section ReportSort.
Context `{Runtime}.

Lemma orStr_empty (s : string) : orStr s "" = s.
Proof. destruct s; reflexivity. Qed.

Lemma str_lt_ltb_false (a b : string) : (a <? b)%string = false -> ~ str_lt a b.
Proof. unfold str_lt. congruence. Qed.

(** The comparator answers at most 0 exactly when the first key comes
    first in the order of the key triples. *)
Lemma compareRecords_le (a b : OutputRecord) :
  compareRecords a b <= 0 <-> key_le (sortKey a) (sortKey b).
Proof.
  unfold compareRecords, sortKey, key_le. rewrite !orStr_empty.
  set (g1 := toLowerCase (genre a)). set (g2 := toLowerCase (genre b)).
  set (a1 := toLowerCase (r_artist a)). set (a2 := toLowerCase (r_artist b)).
  set (t1 := toLowerCase (title a)). set (t2 := toLowerCase (title b)).
  destruct (g1 <? g2)%string eqn:G1; [split; [now left | lia] |].
  destruct (g2 <? g1)%string eqn:G2.
  { split; [lia |]. intros [Hg | [Hg _]].
    - unfold str_lt in Hg. congruence.
    - rewrite Hg in G2. now apply str_lt_irrefl in G2. }
  assert (Hg : g1 = g2) by now apply ltb_false_eq.
  destruct (a1 <? a2)%string eqn:A1; [split; [right; split; [| left]; easy | lia] |].
  destruct (a2 <? a1)%string eqn:A2.
  { split; [lia |]. intros [Hl | [_ [Ha | [Ha _]]]].
    - unfold str_lt in Hl. congruence.
    - unfold str_lt in Ha. congruence.
    - rewrite Ha in A2. now apply str_lt_irrefl in A2. }
  assert (Ha : a1 = a2) by now apply ltb_false_eq.
  destruct (t1 <? t2)%string eqn:T1;
    [split; [right; split; [| right; split; [| left]]; easy | lia] |].
  destruct (t2 <? t1)%string eqn:T2.
  { split; [lia |]. intros [Hl | [_ [Hl | [_ [Ht | Ht]]]]].
    - unfold str_lt in Hl. congruence.
    - unfold str_lt in Hl. congruence.
    - unfold str_lt in Ht. congruence.
    - rewrite Ht in T2. now apply str_lt_irrefl in T2. }
  assert (Ht : t1 = t2) by now apply ltb_false_eq.
  split; [| lia]. intros _. right. split; [easy |]. right. split; [easy |].
  now right.
Qed.

Lemma key_le_refl (k : string * string * string) : key_le k k.
Proof. destruct k as [[g a] t]. simpl. right. split; [easy |]. right. split; [easy |]. now right. Qed.

Lemma key_le_total (k1 k2 : string * string * string) : key_le k1 k2 \/ key_le k2 k1.
Proof.
  destruct k1 as [[g1 a1] t1], k2 as [[g2 a2] t2]. unfold key_le, str_lt.
  destruct (g1 <? g2)%string eqn:G1; [left; now left |].
  destruct (g2 <? g1)%string eqn:G2; [right; now left |].
  assert (g1 = g2) by now apply ltb_false_eq. subst g2.
  destruct (a1 <? a2)%string eqn:A1; [left; right; split; [easy | now left] |].
  destruct (a2 <? a1)%string eqn:A2; [right; right; split; [easy | now left] |].
  assert (a1 = a2) by now apply ltb_false_eq. subst a2.
  destruct (t1 <? t2)%string eqn:T1;
    [left; right; split; [easy |]; right; split; [easy | now left] |].
  destruct (t2 <? t1)%string eqn:T2;
    [right; right; split; [easy |]; right; split; [easy | now left] |].
  assert (t1 = t2) by now apply ltb_false_eq. subst t2.
  left. right. split; [easy |]. right. split; [easy |]. now right.
Qed.

Lemma key_le_trans (k1 k2 k3 : string * string * string) :
  key_le k1 k2 -> key_le k2 k3 -> key_le k1 k3.
Proof.
  destruct k1 as [[g1 a1] t1], k2 as [[g2 a2] t2], k3 as [[g3 a3] t3].
  unfold key_le.
  intros [Hg | [-> Hr]] [Hg' | [-> Hr']];
    try (left; eauto using str_lt_trans; fail).
  right. split; [easy |].
  destruct Hr as [Ha | [-> Hr]], Hr' as [Ha' | [-> Hr']];
    try (left; eauto using str_lt_trans; fail).
  right. split; [easy |].
  destruct Hr as [Ht | ->], Hr' as [Ht' | ->];
    try (left; eauto using str_lt_trans; fail).
  now right.
Qed.

Lemma compareRecords_key (a b : OutputRecord) :
  sortKey a = sortKey b -> compareRecords a b <= 0.
Proof. intros E. apply compareRecords_le. rewrite E. apply key_le_refl. Qed.

(** The comparator is 0 exactly on records with the same key triple. *)
Lemma compareRecords_zero (a b : OutputRecord) :
  compareRecords a b = 0 <-> sortKey a = sortKey b.
Proof.
  unfold compareRecords, sortKey. rewrite !orStr_empty.
  set (g1 := toLowerCase (genre a)). set (g2 := toLowerCase (genre b)).
  set (a1 := toLowerCase (r_artist a)). set (a2 := toLowerCase (r_artist b)).
  set (t1 := toLowerCase (title a)). set (t2 := toLowerCase (title b)).
  split.
  - destruct (g1 <? g2)%string eqn:G1; [discriminate |].
    destruct (g2 <? g1)%string eqn:G2; [discriminate |].
    destruct (a1 <? a2)%string eqn:A1; [discriminate |].
    destruct (a2 <? a1)%string eqn:A2; [discriminate |].
    destruct (t1 <? t2)%string eqn:T1; [discriminate |].
    destruct (t2 <? t1)%string eqn:T2; [discriminate |].
    intros _. f_equal; [f_equal |]; now apply ltb_false_eq.
  - intros E. injection E as -> -> ->.
    assert (R : forall s, (s <? s)%string = false).
    { intros s. unfold String.ltb. now rewrite string_compare_refl. }
    now rewrite !R.
Qed.

Example sort_by_genre_ignoring_case :
  let r g a t := {| title := t; r_artist := a; r_album := "x"; genre := g;
                    duration := "1:05"; duration_seconds := IsNum (Fin 65) |} in
  @sortRecords TestRuntime.runtime
    [r "rock" "B" "1"; r "Pop" "A" "t"; r "pop" "A" "t"; r "Pop" "a" "T"] =
    [r "Pop" "A" "t"; r "pop" "A" "t"; r "Pop" "a" "T"; r "rock" "B" "1"].
Proof. reflexivity. Qed.

(** C5: the report sort returns the same records, in ascending order of
    the lowercased (genre, artist, title) triple, and records with the same
    triple keep the order they had in the input. *)
Theorem sortRecords_sorted_stable (records : list OutputRecord) :
  Permutation (sortRecords records) records
  /\ StronglySorted (fun a b => key_le (sortKey a) (sortKey b)) (sortRecords records)
  /\ (forall k, withKey k (sortRecords records) = withKey k records).
Proof.
  split; [apply sortBy_perm |]. split.
  - eapply StronglySorted_weaken; [| apply (sortBy_sorted compareRecords)].
    + intros a b. apply compareRecords_le.
    + intros x y.
      destruct (key_le_total (sortKey x) (sortKey y)); [left | right];
        now apply compareRecords_le.
    + intros x y z Hxy Hyz. apply compareRecords_le.
      eapply key_le_trans; apply compareRecords_le; eassumption.
  - intros k. unfold withKey, sortRecords.
    apply (sortBy_filter compareRecords sortKey compareRecords_key).
Qed.

End ReportSort.

(** ** Loops and runs *)

(** The rule for [for ... of] loops whose body always returns: an invariant
    that holds for the items done so far holds, at the end, for all items. *)
Lemma forOf_inv {A B} (body : B -> A -> M B) (I : list A -> B -> State -> Prop) :
  (forall done x acc s, I done acc s ->
     exists acc' s', body acc x s = (Ok acc', s') /\ I (done ++ [x])%list acc' s') ->
  forall xs done acc s, I done acc s ->
    exists acc' s', forOf body xs acc s = (Ok acc', s') /\ I (done ++ xs)%list acc' s'.
Proof.
  intros Hbody. induction xs as [| x xs IH]; intros done acc s HI; simpl.
  - exists acc, s. rewrite app_nil_r. split; [reflexivity | assumption].
  - destruct (Hbody done x acc s HI) as (acc' & s' & Hrun & HI').
    destruct (IH _ _ _ HI') as (acc'' & s'' & Hrun' & HI'').
    exists acc'', s''. unfold bind. rewrite Hrun.
    rewrite <- app_assoc in HI''. split; assumption.
Qed.

Lemma steps_refl (s : State) : steps s [] s.
Proof. unfold steps. rewrite app_nil_r. done. Qed.

Lemma steps_trans (s1 s2 s3 : State) (a b : list Event) :
  steps s1 a s2 -> steps s2 b s3 -> steps s1 (a ++ b) s3.
Proof.
  intros (T1 & C1 & M1) (T2 & C2 & M2). unfold steps.
  rewrite T2, T1, app_assoc, C2, C1. split; [done |]. split; [done |].
  etrans; eassumption.
Qed.

Lemma steps_addEvents (s : State) (evs : list Event) : steps s evs (addEvents s evs).
Proof. unfold steps, addEvents. simpl. done. Qed.

Lemma pauses_app (a b : list Event) : pauses (a ++ b) = (pauses a ++ pauses b)%list.
Proof. apply List.filter_app. Qed.

Lemma requests_app (a b : list Event) : requests (a ++ b) = (requests a ++ requests b)%list.
Proof. apply List.filter_app. Qed.

(** A list of requests holds no pause. *)
Lemma pauses_of_gets (evs : list Event) :
  Forall (fun ev => isGet ev = true) evs -> pauses evs = [].
Proof.
  induction 1 as [| ev evs Hev _ IH]; [reflexivity |].
  unfold pauses in *. simpl. destruct ev; [assumption | discriminate].
Qed.

Lemma requests_of_gets (evs : list Event) :
  Forall (fun ev => isGet ev = true) evs -> requests evs = evs.
Proof.
  induction 1 as [| ev evs Hev _ IH]; [reflexivity |].
  unfold requests in *. simpl. rewrite Hev. now rewrite IH.
Qed.

Section SpotifyRun.
Context `{Runtime}.
Variable W : World.
Variable KEY : string.

(** One track of the Spotify loop: at most two requests, then one pause of
    one second, then the record with the genre of the fallback order. *)
Lemma Spotify_processTrack_run (records : list OutputRecord) (t : Track) (s : State) :
  exists g evs,
    Spotify.processTrack W KEY records t s =
      (Ok (records ++ [Spotify.makeRecord t g])%list,
       addEvents s (evs ++ [Sleep 1000]))
    /\ g = resolveGenre_spec
             (firstArtistGenre (primaryAnswer W KEY (Spotify.artistNameOf t) s))
             (Spotify.artistIdOf t)
             (firstTag (secondaryAnswer W (Spotify.artistNameOf t)
                                        (Spotify.artistIdOf t) s))
    /\ Forall (fun ev => isGet ev = true) evs
    /\ (length evs <= 2)%nat.
Proof.
  destruct (getGenreWithFallback_run W KEY (Spotify.artistNameOf t)
              (Spotify.artistIdOf t) s) as (evs & Hrun & Hget & Hlen).
  eexists _, evs. unfold Spotify.processTrack, bind. rewrite Hrun.
  unfold sleep, emit, ret. rewrite addEvents_app.
  repeat split; assumption.
Qed.


(** The whole Spotify loop: one record and one pause per track. *)
Lemma Spotify_loop_run (tracks : list Track) (s : State) :
  exists gs evs,
    forOf (Spotify.processTrack W KEY) tracks [] s =
      (Ok (zip_with Spotify.makeRecord tracks gs), addEvents s evs)
    /\ length gs = length tracks
    /\ Forall (fun g : string => g <> "") gs
    /\ pauses evs = repeat (Sleep 1000) (length tracks).
Proof.
  pose (I := fun (done : list Track) (acc : list OutputRecord) (s' : State) =>
    exists gs evs,
      acc = zip_with Spotify.makeRecord done gs
      /\ s' = addEvents s evs
      /\ length gs = length done
      /\ Forall (fun g : string => g <> "") gs
      /\ pauses evs = repeat (Sleep 1000) (length done)).
  destruct (forOf_inv (Spotify.processTrack W KEY) I) with
    (xs := tracks) (done := @nil Track) (acc := @nil OutputRecord) (s := s)
    as (acc & s' & Hrun & gs & evs & -> & -> & Hlen & Hne & Hp).
  - intros done x acc s0 (gs & evs & -> & -> & Hlen & Hne & Hp).
    destruct (Spotify_processTrack_run (zip_with Spotify.makeRecord done gs) x
                (addEvents s evs)) as (g & evs' & Hrun & Hg & Hget & _).
    eexists _, _. split; [exact Hrun |].
    exists (gs ++ [g])%list, (evs ++ evs' ++ [Sleep 1000])%list.
    split; [| split; [| split; [| split]]].
    + rewrite zip_with_app by (symmetry; exact Hlen). reflexivity.
    + now rewrite addEvents_app.
    + rewrite !length_app, Hlen. reflexivity.
    + apply Forall_app. split; [assumption |]. constructor; [| constructor].
      subst g. apply resolveGenre_spec_nonempty.
    + rewrite !pauses_app, Hp, (pauses_of_gets evs' Hget), length_app.
      simpl. now rewrite repeat_app.
  - exists [], []. rewrite addEvents_nil. repeat split; constructor.
  - exists gs, evs. repeat split; assumption.
Qed.

Lemma zip_with_genre_nonempty {T} (mk : T -> string -> OutputRecord)
    (ts : list T) (gs : list string) :
  (forall t g, genre (mk t g) = g) ->
  Forall (fun g : string => g <> "") gs ->
  Forall (fun r => genre r <> "") (zip_with mk ts gs).
Proof.
  intros Hmk Hgs. revert ts. induction Hgs as [| g gs Hg _ IH]; intros [| t ts];
    simpl; constructor; [now rewrite Hmk | apply IH].
Qed.

(** The paginated fetch leaves the CSV file alone, whatever happens. *)
Lemma getPlaylistTracks_while_csv (fuel : nat) :
  forall url tracks s,
    csvFile (snd (Spotify.getPlaylistTracks_while W fuel url tracks s)) = csvFile s.
Proof.
  induction fuel as [| fuel IH]; intros url tracks s; simpl;
    destruct (truthyOptStr url); try reflexivity.
  unfold bind. rewrite get_run.
  destruct (spotifyPlaylistTracks W _ _) as [p |]; [| reflexivity].
  rewrite IH. reflexivity.
Qed.

(** A run of the Spotify script that got its tracks: every track gives one
    record, and the sorted records are written. *)
Lemma Spotify_analyzePlaylist_run (fuel : nat) (id : string) (s s0 : State)
    (tracks : list Track) :
  truthyStr id = true ->
  Spotify.getPlaylistTracks W fuel id s = (Ok tracks, s0) ->
  exists gs evs,
    Spotify.analyzePlaylist W KEY fuel id s =
      (Ok Completed,
       withCsv (addEvents s0 evs) (sortRecords (zip_with Spotify.makeRecord tracks gs)))
    /\ length gs = length tracks
    /\ Forall (fun g : string => g <> "") gs
    /\ pauses evs = repeat (Sleep 1000) (length tracks).
Proof.
  intros Hid Hfetch.
  destruct (Spotify_loop_run tracks s0) as (gs & evs & Hloop & Hlen & Hne & Hp).
  exists gs, evs. unfold Spotify.analyzePlaylist. rewrite Hid. simpl.
  unfold try_catch, bind. rewrite Hfetch, Hloop. simpl.
  repeat split; assumption.
Qed.

End SpotifyRun.

(** ** Pagination (variant A) *)

Section Pagination.
Variable W : World.

Lemma pushItems_omap (tracks : list Track) (its : list PlaylistItem) :
  Spotify.pushItems tracks its =
    (tracks ++ map Spotify.mapTrack (omap item_track its))%list.
Proof.
  revert tracks. induction its as [| it its IH]; intros tracks; simpl.
  - now rewrite app_nil_r.
  - destruct (item_track it) as [t |]; simpl; [| apply IH].
    rewrite IH, <- app_assoc. reflexivity.
Qed.

Lemma tracksOf_cons (p : PlaylistPage) (pages : list PlaylistPage) :
  tracksOf (p :: pages) =
    (map Spotify.mapTrack (omap item_track (items p)) ++ tracksOf pages)%list.
Proof.
  unfold tracksOf. simpl. rewrite omap_app, map_app. reflexivity.
Qed.

Lemma getPlaylistTracks_while_run (pages : list PlaylistPage) :
  forall fuel url tracks s,
    truthyStr url = true ->
    serves W (length (trace s)) url pages ->
    (length pages <= fuel)%nat ->
    Spotify.getPlaylistTracks_while W fuel (Some url) tracks s =
      (Ok (tracks ++ tracksOf pages)%list,
       addEvents s (map (Get AxiosSpotify) (pageUrls url pages))).
Proof.
  induction pages as [| p rest IH]; intros fuel url tracks s Hurl Hserves Hfuel;
    [destruct Hserves |].
  destruct Hserves as [Hp Hrest].
  destruct fuel as [| fuel]; [simpl in Hfuel; lia |].
  cbn [Spotify.getPlaylistTracks_while truthyOptStr]. rewrite Hurl.
  change (default "" (Some url)) with url.
  unfold bind. rewrite get_run, Hp.
  rewrite pushItems_omap, tracksOf_cons.
  destruct rest as [| q rest'].
  - destruct fuel; cbn [Spotify.getPlaylistTracks_while]; rewrite Hrest;
      unfold ret, tracksOf; simpl; now rewrite !app_nil_r.
  - destruct Hrest as (u & Hnext & Hu & Hserves').
    rewrite Hnext. rewrite (IH fuel u).
    + rewrite addEvents_app, <- app_assoc. cbn [pageUrls].
      rewrite Hnext. reflexivity.
    + exact Hu.
    + unfold addEvents. simpl. rewrite length_app, Nat.add_1_r. exact Hserves'.
    + simpl in Hfuel |- *. lia.
Qed.

Lemma pageUrls_length (url : string) (pages : list PlaylistPage) :
  length (pageUrls url pages) = length pages.
Proof.
  revert url. induction pages as [| p rest IH]; intros url; simpl;
    [reflexivity | now rewrite IH].
Qed.

(** C4: when the world serves a chain of pages whose last [next] is null
    or empty, the paginated fetch (given fuel for every page) returns the
    tracks of all pages in order, leaving out the items without a track,
    and issues exactly one request per page: the first URL, then each
    [next]. *)
Theorem getPlaylistTracks_all_pages (fuel : nat) (playlistId : string)
    (pages : list PlaylistPage) (s : State) :
  serves W (length (trace s)) (Spotify.playlistUrl playlistId) pages ->
  (length pages <= fuel)%nat ->
  exists evs,
    Spotify.getPlaylistTracks W fuel playlistId s =
      (Ok (tracksOf pages), addEvents s evs)
    /\ evs = map (Get AxiosSpotify) (pageUrls (Spotify.playlistUrl playlistId) pages)
    /\ requests evs = evs
    /\ length evs = length pages.
Proof.
  intros Hserves Hfuel. eexists. split; [| split; [reflexivity | split]].
  - unfold Spotify.getPlaylistTracks.
    rewrite (getPlaylistTracks_while_run pages); try assumption; reflexivity.
  - apply requests_of_gets, Forall_map, Forall_forall. reflexivity.
  - now rewrite length_map, pageUrls_length.
Qed.

End Pagination.

Lemma getPlaylistTracks_all_pages_witness :
  let pages := [TestRuntime.page1; TestRuntime.page2; TestRuntime.page3] in
  exists evs,
    Spotify.getPlaylistTracks TestRuntime.online 3 "PL" initial =
      (Ok (tracksOf pages), addEvents initial evs)
    /\ length evs = 3%nat
    /\ length (tracksOf pages) = 4%nat.
Proof.
  cbv zeta.
  destruct (getPlaylistTracks_all_pages TestRuntime.online 3 "PL"
              [TestRuntime.page1; TestRuntime.page2; TestRuntime.page3] initial)
    as (evs & Hrun & _ & _ & Hlen).
  - simpl. split; [reflexivity |].
    eexists. split; [reflexivity |]. split; [reflexivity |].
    split; [reflexivity |].
    eexists. split; [reflexivity |]. split; [reflexivity |].
    split; reflexivity.
  - simpl. lia.
  - exists evs. split; [exact Hrun |]. split; [exact Hlen | reflexivity].
Defined.

(** ** Variant B: tracks, loop and run *)

Lemma join_nonempty (sep : string) (l : list string) :
  l <> [] -> Forall (fun n : string => n <> "") l -> join sep l <> "".
Proof.
  intros Hl Hne. destruct l as [| x l]; [contradiction |].
  apply Forall_cons in Hne as [Hx _].
  destruct x as [| c x]; [contradiction |].
  destruct l; simpl; discriminate.
Qed.

Lemma nameOf_nonempty (g : DeezerGenre) (n : string) : nameOf g = Some n -> n <> "".
Proof.
  unfold nameOf. destruct (genre_name g) as [m |]; [| discriminate].
  destruct m; simpl; [discriminate |]. intros [= <-]. discriminate.
Qed.

Lemma albumGenreNames_nonempty (r : option DeezerAlbum) :
  Forall (fun n : string => n <> "") (albumGenreNames r).
Proof.
  unfold albumGenreNames.
  destruct r as [[[[[l |]] |]] |]; simpl; try constructor.
  apply Forall_forall. intros n Hn.
  apply list_elem_of_omap in Hn as (g & _ & Hg). eapply nameOf_nonempty, Hg.
Qed.

Lemma cacheOk_initial : cacheOk initial.
Proof. intros k info Hk. simpl in Hk. rewrite lookup_empty in Hk. discriminate. Qed.

(** The genre the Deezer loop makes of an album's genre list. *)
Lemma album_genre_run (info : AlbumInfo) (s : State) :
  (if (0 <? length (genres info))%nat
   then ret (join ", " (genres info)) else ret Inconnu) s =
  (Ok (if (0 <? length (genres info))%nat
       then join ", " (genres info) else Inconnu), s).
Proof. destruct (0 <? length (genres info))%nat; reflexivity. Qed.

Lemma album_genre_nonempty (info : AlbumInfo) :
  Forall (fun n : string => n <> "") (genres info) ->
  (if (0 <? length (genres info))%nat
   then join ", " (genres info) else Inconnu) <> "".
Proof.
  intros Hne. destruct (genres info) as [| n l] eqn:Hg; [discriminate |].
  cbn [length Nat.ltb Nat.leb]. apply join_nonempty; [discriminate | assumption].
Qed.

Section DeezerRun.
Context `{Runtime}.
Variable W : World.
Variable KEY : string.

(** The album half of the loop body: at most one request, no pause, and
    with a sound cache a genre that is not empty. *)
Lemma genreFromAlbum_run (albumId : option Z) (s : State) :
  exists g1 s1 evs,
    Deezer.genreFromAlbum W albumId s = (Ok g1, s1)
    /\ steps s evs s1
    /\ Forall (fun ev => isGet ev = true) evs
    /\ (length evs <= 1)%nat
    /\ (cacheOk s -> cacheOk s1 /\ g1 <> "").
Proof.
  unfold Deezer.genreFromAlbum.
  destruct (Deezer.truthyId albumId).
  2:{ exists Inconnu, s, []. split; [reflexivity |].
      split; [apply steps_refl |]. split; [constructor |]. split; [simpl; lia |].
      intros Hc. split; [assumption | discriminate]. }
  unfold bind. rewrite getDeezerAlbumInfo_run.
  set (k := default 0 albumId).
  destruct (albumCache s !! k) as [info |] eqn:Hk.
  - rewrite album_genre_run.
    eexists _, s, []. split; [reflexivity |].
    split; [apply steps_refl |]. split; [constructor |]. split; [simpl; lia |].
    intros Hc. split; [assumption |].
    apply album_genre_nonempty. eapply Hc, Hk.
  - cbv zeta. destruct (deezerAlbum W _ _) as [r |].
    + rewrite album_genre_run.
      eexists _, _, [Get Axios (Deezer.albumUrl k)]. split; [reflexivity |].
      split; [| split; [repeat constructor | split; [simpl; lia |]]].
      * unfold steps, withCache, addEvents. simpl. split; [done |]. split; [done |].
        now apply insert_subseteq.
      * intros Hc. split.
        -- intros k' info'. unfold withCache, addEvents. simpl.
           rewrite lookup_insert. case_decide.
           ++ intros [= <-]. apply albumGenreNames_nonempty.
           ++ apply Hc.
        -- apply album_genre_nonempty. apply albumGenreNames_nonempty.
    + rewrite album_genre_run.
      eexists _, _, [Get Axios (Deezer.albumUrl k)]. split; [reflexivity |].
      split; [apply steps_addEvents |]. split; [repeat constructor |].
      split; [simpl; lia |].
      intros Hc. split; [exact Hc | discriminate].
Qed.

(** The fallback half: nothing when the genre is not the placeholder;
    otherwise the TheAudioDB call (at most one request) and then the
    pause. *)
Lemma genreWithFallback_run (g1 artistName trackTitle : string) (s1 : State) :
  if strictEq g1 Inconnu then
    exists info evs,
      Deezer.getAudioDBInfo W KEY artistName trackTitle s1 =
        (Ok info, addEvents s1 evs)
      /\ Forall (fun ev => isGet ev = true) evs
      /\ (length evs <= 1)%nat
      /\ Deezer.info_genre info <> ""
      /\ Deezer.genreWithFallback W KEY g1 artistName trackTitle s1 =
           (Ok (Deezer.info_genre info), addEvents s1 (evs ++ [Sleep 1000]))
  else
    Deezer.genreWithFallback W KEY g1 artistName trackTitle s1 = (Ok g1, s1).
Proof.
  unfold Deezer.genreWithFallback.
  destruct (strictEq g1 Inconnu); [| reflexivity].
  unfold bind. rewrite getAudioDBInfo_run.
  destruct (encodeURIComponent artistName) as [enc |].
  - eexists _, [_]. split; [reflexivity |]. split; [repeat constructor |].
    split; [simpl; lia |]. split.
    + simpl. destruct (firstArtistGenre _) as [g |]; simpl; [| discriminate].
      destruct g; simpl; discriminate.
    + unfold sleep, emit, ret. now rewrite addEvents_app.
  - eexists _, []. rewrite addEvents_nil. split; [reflexivity |].
    split; [constructor |]. split; [simpl; lia |]. split; [discriminate |].
    reflexivity.
Qed.

(** One track of the Deezer loop. The album half decides: when its genre
    is the placeholder the TheAudioDB call is made and followed by one
    pause; otherwise neither happens. *)
Lemma Deezer_processTrack_split (records : list OutputRecord) (t : DeezerTrack)
    (s : State) :
  exists g1 s1 evs1,
    Deezer.genreFromAlbum W (Deezer.albumIdOf t) s = (Ok g1, s1)
    /\ steps s evs1 s1
    /\ pauses evs1 = []
    /\ (cacheOk s -> cacheOk s1 /\ g1 <> "")
    /\ ((g1 = Inconnu /\
         exists info evs2,
           Deezer.getAudioDBInfo W KEY (Deezer.artistNameOf t)
             (Deezer.trackTitleOf t) s1 = (Ok info, addEvents s1 evs2)
           /\ pauses evs2 = []
           /\ Deezer.info_genre info <> ""
           /\ Deezer.processTrack W KEY records t s =
                (Ok (records ++ [Deezer.makeRecord t (Deezer.info_genre info)])%list,
                 addEvents s1 (evs2 ++ [Sleep 1000])))
        \/ (g1 <> Inconnu /\
            Deezer.processTrack W KEY records t s =
              (Ok (records ++ [Deezer.makeRecord t g1])%list, s1))).
Proof.
  destruct (genreFromAlbum_run (Deezer.albumIdOf t) s)
    as (g1 & s1 & evs1 & Hrun & Hsteps & Hget & _ & Hok).
  exists g1, s1, evs1. split; [exact Hrun |]. split; [exact Hsteps |].
  split; [now apply pauses_of_gets |]. split; [exact Hok |].
  pose proof (genreWithFallback_run g1 (Deezer.artistNameOf t)
                (Deezer.trackTitleOf t) s1) as Hfb.
  unfold Deezer.processTrack, bind. rewrite Hrun.
  unfold strictEq in Hfb. destruct (String.eqb_spec g1 Inconnu) as [-> | Hne].
  - left. split; [reflexivity |].
    destruct Hfb as (info & evs2 & Hinfo & Hget2 & _ & Hg & Hfb).
    exists info, evs2. split; [exact Hinfo |].
    split; [now apply pauses_of_gets |]. split; [exact Hg |].
    now rewrite Hfb.
  - right. split; [exact Hne |]. now rewrite Hfb.
Qed.

Lemma Deezer_processTrack_run (records : list OutputRecord) (t : DeezerTrack)
    (s : State) :
  exists g s' evs,
    Deezer.processTrack W KEY records t s =
      (Ok (records ++ [Deezer.makeRecord t g])%list, s')
    /\ steps s evs s'
    /\ (length (pauses evs) <= 1)%nat
    /\ (cacheOk s -> cacheOk s' /\ g <> "").
Proof.
  destruct (Deezer_processTrack_split records t s)
    as (g1 & s1 & evs1 & _ & Hsteps & Hp & Hok & [[-> Hfb] | [Hne Hrun]]).
  - destruct Hfb as (info & evs2 & _ & Hp2 & Hg & Hrun).
    exists (Deezer.info_genre info), (addEvents s1 (evs2 ++ [Sleep 1000])),
      (evs1 ++ evs2 ++ [Sleep 1000])%list.
    split; [exact Hrun |].
    split; [eapply steps_trans; [exact Hsteps | apply steps_addEvents] |].
    split; [rewrite !pauses_app, Hp, Hp2; simpl; lia |].
    intros Hc. split; [| exact Hg]. intros k info'. apply (proj1 (Hok Hc)).
  - exists g1, s1, evs1. split; [exact Hrun |]. split; [exact Hsteps |].
    split; [rewrite Hp; simpl; lia |]. exact Hok.
Qed.

(** The whole Deezer loop: one record per track; from a state with a
    sound cache no genre is empty. *)
Lemma Deezer_loop_run (tracks : list DeezerTrack) (s : State) :
  exists gs s' evs,
    forOf (Deezer.processTrack W KEY) tracks [] s =
      (Ok (zip_with Deezer.makeRecord tracks gs), s')
    /\ steps s evs s'
    /\ length gs = length tracks
    /\ (cacheOk s -> Forall (fun g : string => g <> "") gs)
    /\ (length (pauses evs) <= length tracks)%nat.
Proof.
  pose (I := fun (done : list DeezerTrack) (acc : list OutputRecord) (s' : State) =>
    exists gs evs,
      acc = zip_with Deezer.makeRecord done gs
      /\ steps s evs s'
      /\ length gs = length done
      /\ (cacheOk s -> cacheOk s' /\ Forall (fun g : string => g <> "") gs)
      /\ (length (pauses evs) <= length done)%nat).
  destruct (forOf_inv (Deezer.processTrack W KEY) I) with
    (xs := tracks) (done := @nil DeezerTrack) (acc := @nil OutputRecord) (s := s)
    as (acc & s' & Hrun & gs & evs & -> & Hsteps & Hlen & Hne & Hp).
  - intros done x acc s0 (gs & evs & -> & Hsteps & Hlen & Hne & Hp).
    destruct (Deezer_processTrack_run (zip_with Deezer.makeRecord done gs) x s0)
      as (g & s1 & evs' & Hrun & Hsteps' & Hp' & Hok).
    eexists _, s1. split; [exact Hrun |].
    exists (gs ++ [g])%list, (evs ++ evs')%list.
    split; [| split; [| split; [| split]]].
    + rewrite zip_with_app by (symmetry; exact Hlen). reflexivity.
    + eapply steps_trans; eassumption.
    + rewrite !length_app, Hlen. reflexivity.
    + intros Hc. destruct (Hne Hc) as [Hc0 Hgs]. destruct (Hok Hc0) as [Hc1 Hg].
      split; [exact Hc1 |].
      apply Forall_app. split; [assumption |]. now repeat constructor.
    + rewrite pauses_app, !length_app. simpl. lia.
  - exists [], []. split; [reflexivity |]. split; [apply steps_refl |].
    split; [reflexivity |]. split; [| simpl; lia].
    intros Hc. split; [exact Hc | constructor].
  - exists gs, s', evs. split; [exact Hrun |]. split; [exact Hsteps |].
    split; [exact Hlen |]. split; [| exact Hp]. intros Hc. apply (Hne Hc).
Qed.

(** A run of the Deezer script that got its tracks: every track gives one
    record, and the sorted records are written. *)
Lemma Deezer_analyzePlaylist_run (id : string) (s : State)
    (tracks : list DeezerTrack) :
  truthyStr id = true ->
  deezerPlaylistTracks W (length (trace s)) (Deezer.playlistUrl id) = Some tracks ->
  exists gs s',
    Deezer.analyzePlaylist W KEY id s = (Ok Completed, s')
    /\ csvFile s' = Some (sortRecords (zip_with Deezer.makeRecord tracks gs))
    /\ length gs = length tracks
    /\ (cacheOk s -> Forall (fun g : string => g <> "") gs).
Proof.
  intros Hid Hfetch.
  destruct (Deezer_loop_run tracks
              (addEvents s [Get Axios (Deezer.playlistUrl id)]))
    as (gs & s' & evs & Hloop & _ & Hlen & Hne & _).
  exists gs, (withCsv s' (sortRecords (zip_with Deezer.makeRecord tracks gs))).
  unfold Deezer.analyzePlaylist. rewrite Hid. simpl.
  unfold try_catch, bind, Deezer.getPlaylistTracks. rewrite get_run, Hfetch, Hloop.
  simpl. auto.
Qed.

End DeezerRun.

(** ** The genre fallback and the tempo lookup (variant A) *)

Section SpotifyEnrichment.
Context `{Runtime}.
Variable W : World.
Variable KEY : string.

(** C3: [getGenreWithFallback] follows the fallback order. Its result is
    the usable genre of the primary provider (TheAudioDB) when there is
    one; otherwise, when an artist identifier is supplied, the usable first
    genre tag of the secondary provider (Spotify); otherwise exactly the
    placeholder. *)
Theorem getGenreWithFallback_order (artistName : string) (artistId : option string)
    (s : State) :
  let primary := firstArtistGenre (primaryAnswer W KEY artistName s) in
  let secondary := firstTag (secondaryAnswer W artistName artistId s) in
  let result := fst (Spotify.getGenreWithFallback W KEY artistName artistId s) in
  result = Ok (resolveGenre_spec primary artistId secondary)
  /\ (forall g, primary = Some g -> usable g = true -> result = Ok g)
  /\ (forall id t,
        usableGenre primary = None -> artistId = Some id -> truthyStr id = true ->
        secondary = Some t -> usable t = true -> result = Ok t)
  /\ (usableGenre primary = None ->
      artistId = None \/ usableGenre secondary = None ->
      result = Ok Inconnu).
Proof.
  intros primary secondary result.
  assert (Hres : result = Ok (resolveGenre_spec primary artistId secondary)).
  { subst result.
    destruct (getGenreWithFallback_run W KEY artistName artistId s)
      as (evs & -> & _). reflexivity. }
  split; [exact Hres |]. rewrite Hres. unfold resolveGenre_spec.
  split; [| split].
  - intros g -> Hg. simpl. now rewrite Hg.
  - intros id t -> -> Hid -> Ht. simpl. now rewrite Hid, Ht.
  - intros -> [-> | ->]; [reflexivity |].
    destruct artistId as [id |]; [| reflexivity].
    now destruct (truthyStr id).
Qed.

(** C9: [getTrackBpmFromAudioDB] always returns, a finite number or
    nothing. When the first track found has a tempo (the code's test: a
    string that is neither null nor empty), the result is that tempo
    converted by [Number] if the conversion is finite; it is nothing when
    the request fails, when no track or no tempo is found (an empty tempo
    included), or when the conversion is not finite. *)
Theorem getTrackBpmFromAudioDB_result (artistName trackTitle : string) (s : State) :
  let answer := tempoAnswer W KEY artistName trackTitle s in
  exists r s',
    Spotify.getTrackBpmFromAudioDB W KEY artistName trackTitle s = (Ok r, s')
    /\ (forall n, r = Some n -> doubleIsFinite n = true)
    /\ (forall tempo,
          firstTempo answer = Some tempo -> truthyStr tempo = true ->
          doubleIsFinite (Number tempo) = true -> r = Some (Number tempo))
    /\ (forall tempo,
          firstTempo answer = Some tempo ->
          doubleIsFinite (Number tempo) = false -> r = None)
    /\ (firstTempo answer = None \/ firstTempo answer = Some "" -> r = None)
    /\ (answer = None -> r = None).
Proof.
  intros answer. subst answer. unfold tempoAnswer.
  rewrite getTrackBpmFromAudioDB_run.
  destruct (encodeURIComponent artistName) as [encA |];
    [destruct (encodeURIComponent trackTitle) as [encT |] |].
  - cbv zeta. set (a := audioDBSearchTrack W _ _).
    eexists _, _. split; [reflexivity |].
    destruct (firstTempo a) as [tempo |] eqn:Ht.
    + split; [| split; [| split; [| split]]].
      * intros n. destruct (truthyStr tempo), (doubleIsFinite (Number tempo)) eqn:E;
          simpl; intros [= <-]; exact E.
      * intros ? [= <-] -> ->. reflexivity.
      * intros ? [= <-] ->. now rewrite andb_false_r.
      * intros [? | [= ->]]; [discriminate | reflexivity].
      * intros Ha. rewrite Ha in Ht. discriminate.
    + repeat split; try reflexivity; discriminate.
  - eexists _, _. split; [reflexivity |]. repeat split; try reflexivity; discriminate.
  - eexists _, _. split; [reflexivity |]. repeat split; try reflexivity; discriminate.
Qed.

End SpotifyEnrichment.

Example fallback_primary :
  fst (@Spotify.getGenreWithFallback TestRuntime.runtime TestRuntime.online "1"
         "Known" (Some "a1") initial) = Ok "Rock".
Proof. reflexivity. Qed.

Example fallback_without_id :
  fst (@Spotify.getGenreWithFallback TestRuntime.runtime TestRuntime.online "1"
         "Other" None initial) = Ok "Inconnu".
Proof. reflexivity. Qed.

Example fallback_placeholder_id :
  @Spotify.getGenreWithFallback TestRuntime.runtime TestRuntime.online "1"
    "Other" (Some "unknown") initial =
  (Ok "Inconnu",
   addEvents initial
     [Get Axios "https://theaudiodb.com/api/v1/json/1/search.php?s=Other"]).
Proof. reflexivity. Qed.

Lemma getGenreWithFallback_order_witness :
  fst (@Spotify.getGenreWithFallback TestRuntime.runtime TestRuntime.online "1"
         "Other" (Some "a2") initial) = Ok "indie".
Proof.
  apply (proj1 (proj2 (proj2
           (@getGenreWithFallback_order TestRuntime.runtime TestRuntime.online "1"
              "Other" (Some "a2") initial))) "a2" "indie");
    reflexivity.
Defined.

Lemma getTrackBpmFromAudioDB_result_witness :
  exists s',
    @Spotify.getTrackBpmFromAudioDB TestRuntime.runtime TestRuntime.online "1"
      "Known" "One" initial = (Ok (Some (Fin 120)), s').
Proof.
  destruct (@getTrackBpmFromAudioDB_result TestRuntime.runtime TestRuntime.online "1"
              "Known" "One" initial) as (r & s' & Hrun & _ & Hfin & _).
  exists s'. rewrite Hrun. f_equal. f_equal.
  apply (Hfin "120"); reflexivity.
Defined.

(** ** The album cache (variant B) *)

(** When the first request for an album is rejected, the empty list is
    returned but not stored: the cache still has no entry for the album, the
    second lookup of the same album issues a second request, and it returns
    another value than the first. *)
Lemma failed_lookup_is_not_cached :
  let W := TestRuntime.flaky in
  let first := @Deezer.getDeezerAlbumInfo W 7 initial in
  let second := @Deezer.getDeezerAlbumInfo W 7 (snd first) in
  fst first = Ok {| genres := [] |}
  /\ albumCache (snd first) !! 7 = None
  /\ requests (trace (snd second)) =
       [Get Axios "https://api.deezer.com/album/7";
        Get Axios "https://api.deezer.com/album/7"]
  /\ fst second = Ok {| genres := ["Pop"] |}
  /\ fst second <> fst first.
Proof.
  cbv zeta. rewrite !getDeezerAlbumInfo_run.
  repeat split; try reflexivity. discriminate.
Qed.

Example second_lookup_uses_cache :
  let first := @Deezer.getDeezerAlbumInfo TestRuntime.online 7 initial in
  let second := @Deezer.getDeezerAlbumInfo TestRuntime.online 7 (snd first) in
  fst second = fst first
  /\ trace (snd second) = [Get Axios "https://api.deezer.com/album/7"].
Proof. cbv zeta. rewrite !getDeezerAlbumInfo_run. split; reflexivity. Qed.

Section AlbumCache.
Variable W : World.

(** C1 (amended): a lookup either returns the stored value, without any
    request, or issues exactly one request; an answered request stores its
    result before returning, a rejected one returns the empty list and
    stores nothing. After a hit or an answered request the album is in the
    cache, and then every later lookup of that album (the cache never loses
    an entry) returns the same value with no request and no change of
    state: the two lookups cost at most one request in total. *)
Theorem getDeezerAlbumInfo_get_or_populate (albumId : Z) (s : State) :
  exists info s1 evs,
    Deezer.getDeezerAlbumInfo W albumId s = (Ok info, s1)
    /\ steps s evs s1
    /\ ((albumCache s !! albumId = Some info /\ evs = [] /\ s1 = s)
        \/ (albumCache s !! albumId = None
            /\ evs = [Get Axios (Deezer.albumUrl albumId)]
            /\ exists r, albumAnswer W albumId s = Some r
                         /\ info = {| genres := albumGenreNames r |}
                         /\ albumCache s1 = <[albumId := info]> (albumCache s))
        \/ (albumCache s !! albumId = None
            /\ evs = [Get Axios (Deezer.albumUrl albumId)]
            /\ albumAnswer W albumId s = None
            /\ info = {| genres := [] |}
            /\ albumCache s1 = albumCache s))
    /\ (is_Some (albumCache s !! albumId) \/ is_Some (albumAnswer W albumId s) ->
        albumCache s1 !! albumId = Some info)
    /\ (albumCache s1 !! albumId = Some info ->
        forall s2, albumCache s1 ⊆ albumCache s2 ->
                   Deezer.getDeezerAlbumInfo W albumId s2 = (Ok info, s2)).
Proof.
  assert (Hagain : forall info (s1 : State),
             albumCache s1 !! albumId = Some info ->
             forall s2, albumCache s1 ⊆ albumCache s2 ->
                        Deezer.getDeezerAlbumInfo W albumId s2 = (Ok info, s2)).
  { intros info s1 Hin s2 Hsub. rewrite getDeezerAlbumInfo_run.
    now rewrite (lookup_weaken _ _ _ _ Hin Hsub). }
  rewrite getDeezerAlbumInfo_run. unfold albumAnswer.
  destruct (albumCache s !! albumId) as [info |] eqn:Hc.
  - exists info, s, []. split; [reflexivity |]. split; [apply steps_refl |].
    split; [left; auto |]. split; [auto | apply Hagain].
  - cbv zeta. destruct (deezerAlbum W _ _) as [r |] eqn:Hr.
    + eexists _, _, _. split; [reflexivity |]. split.
      * unfold steps, withCache, addEvents. simpl. split; [done |]. split; [done |].
        now apply insert_subseteq.
      * split; [| split; [| apply Hagain]].
        -- right. left. split; [reflexivity |]. split; [reflexivity |].
           exists r. auto.
        -- intros _. unfold withCache. simpl. apply lookup_insert_eq.
    + eexists _, _, _. split; [reflexivity |]. split; [apply steps_addEvents |].
      split; [| split; [| apply Hagain]].
      * right. right. auto.
      * intros [[? ?] | [? ?]]; discriminate.
Qed.

End AlbumCache.

Lemma getDeezerAlbumInfo_get_or_populate_witness :
  let W := TestRuntime.online in
  let first := @Deezer.getDeezerAlbumInfo W 7 initial in
  fst first = Ok {| genres := ["Pop"; "Rock"] |}
  /\ @Deezer.getDeezerAlbumInfo W 7 (snd first) =
       (Ok {| genres := ["Pop"; "Rock"] |}, snd first).
Proof.
  cbv zeta.
  destruct (getDeezerAlbumInfo_get_or_populate TestRuntime.online 7 initial)
    as (info & s1 & evs & Hrun & _ & _ & _ & Hagain).
  rewrite Hrun. cbn [fst snd].
  assert (Hinfo : info = {| genres := ["Pop"; "Rock"] |}).
  { rewrite getDeezerAlbumInfo_run in Hrun. now injection Hrun as <- _. }
  assert (Hs1 : albumCache s1 !! 7 = Some info).
  { rewrite getDeezerAlbumInfo_run in Hrun. injection Hrun as <- <-. reflexivity. }
  rewrite <- Hinfo. split; [reflexivity |]. now apply Hagain.
Defined.

(** ** Every record has a genre *)

Section GenreField.
Context `{Runtime}.
Variable W : World.
Variable KEY : string.

Lemma sortRecords_Forall (P : OutputRecord -> Prop) (rs : list OutputRecord) :
  Forall P rs -> Forall P (sortRecords rs).
Proof.
  apply Permutation_Forall. symmetry. apply sortBy_perm.
Qed.

Lemma sortRecords_length (rs : list OutputRecord) :
  length (sortRecords rs) = length rs.
Proof. apply Permutation_length, sortBy_perm. Qed.

Lemma getAudioDBInfo_genre (artistName trackTitle : string) (s : State) :
  fst (Deezer.getAudioDBInfo W KEY artistName trackTitle s) =
    Ok {| Deezer.info_genre :=
            orInconnu (firstArtistGenre (primaryAnswer W KEY artistName s)) |}.
Proof.
  rewrite getAudioDBInfo_run. unfold primaryAnswer.
  destruct (encodeURIComponent artistName); reflexivity.
Qed.

(** C2: every record has a non-empty genre. This holds for every row of
    the file a run writes, when the run starts without a file and with a
    cache whose genre names are non-empty (the scripts start with an empty
    cache), and for the record that each script pushes for a track. That
    genre is the result of the fallback order in the Spotify script; in the
    Deezer script it is the genre of the album unless that is the
    placeholder, and then the genre TheAudioDB gives or, when it gives
    none, the placeholder. *)
Theorem genre_never_empty (fuel : nat) (PLAYLIST_ID : string) (s : State)
    (rs : list OutputRecord) :
  csvFile s = None ->
  cacheOk s ->
  (csvFile (snd (Spotify.analyzePlaylist W KEY fuel PLAYLIST_ID s)) = Some rs ->
   Forall (fun r => genre r <> "") rs)
  /\ (csvFile (snd (Deezer.analyzePlaylist W KEY PLAYLIST_ID s)) = Some rs ->
      Forall (fun r => genre r <> "") rs)
  /\ (forall records t, exists r s',
        Spotify.processTrack W KEY records t s = (Ok (records ++ [r])%list, s')
        /\ genre r <> ""
        /\ genre r =
             resolveGenre_spec
               (firstArtistGenre (primaryAnswer W KEY (Spotify.artistNameOf t) s))
               (Spotify.artistIdOf t)
               (firstTag (secondaryAnswer W (Spotify.artistNameOf t)
                                          (Spotify.artistIdOf t) s)))
  /\ (forall records t, exists r s' g1 s1,
        Deezer.processTrack W KEY records t s = (Ok (records ++ [r])%list, s')
        /\ genre r <> ""
        /\ Deezer.genreFromAlbum W (Deezer.albumIdOf t) s = (Ok g1, s1)
        /\ genre r =
             if strictEq g1 Inconnu
             then orInconnu (firstArtistGenre
                               (primaryAnswer W KEY (Deezer.artistNameOf t) s1))
             else g1).
Proof.
  intros Hcsv Hc. split; [| split; [| split]].
  - unfold Spotify.analyzePlaylist.
    destruct (truthyStr PLAYLIST_ID) eqn:Hid; simpl; [| congruence].
    destruct (Spotify.getPlaylistTracks W fuel PLAYLIST_ID s) as [r s0] eqn:Hfetch.
    assert (Hcsv0 : csvFile s0 = None).
    { rewrite <- Hcsv. change s0 with (snd (r, s0)). rewrite <- Hfetch.
      apply getPlaylistTracks_while_csv. }
    destruct r as [tracks | e |].
    + destruct (Spotify_analyzePlaylist_run W KEY fuel PLAYLIST_ID s s0 tracks
                  Hid Hfetch) as (gs & evs & Hrun & _ & Hne & _).
      unfold Spotify.analyzePlaylist in Hrun. rewrite Hid in Hrun. simpl in Hrun.
      rewrite Hrun. simpl. intros [= <-].
      apply sortRecords_Forall, zip_with_genre_nonempty; [reflexivity | exact Hne].
    + unfold try_catch, bind. rewrite Hfetch. simpl. congruence.
    + unfold try_catch, bind. rewrite Hfetch. simpl. congruence.
  - unfold Deezer.analyzePlaylist.
    destruct (truthyStr PLAYLIST_ID) eqn:Hid; simpl; [| congruence].
    destruct (deezerPlaylistTracks W (length (trace s))
                (Deezer.playlistUrl PLAYLIST_ID)) as [tracks |] eqn:Hfetch.
    + destruct (Deezer_analyzePlaylist_run W KEY PLAYLIST_ID s tracks Hid Hfetch)
        as (gs & s' & Hrun & Hfile & _ & Hne).
      unfold Deezer.analyzePlaylist in Hrun. rewrite Hid in Hrun. simpl in Hrun.
      rewrite Hrun. simpl. rewrite Hfile. intros [= <-].
      apply sortRecords_Forall, zip_with_genre_nonempty; [reflexivity | auto].
    + unfold try_catch, bind, Deezer.getPlaylistTracks. rewrite get_run, Hfetch.
      simpl. congruence.
  - intros records t.
    destruct (Spotify_processTrack_run W KEY records t s)
      as (g & evs & Hrun & Hg & _).
    eexists _, _. split; [exact Hrun |]. simpl. subst g.
    split; [apply resolveGenre_spec_nonempty | reflexivity].
  - intros records t.
    destruct (Deezer_processTrack_split W KEY records t s)
      as (g1 & s1 & evs1 & Halbum & _ & _ & Hok & Hcases).
    destruct (Hok Hc) as [_ Hg1].
    destruct Hcases as [[-> (info & evs2 & Hinfo & _ & Hg & Hrun)] | [Hne Hrun]].
    + eexists _, _, Inconnu, s1. split; [exact Hrun |]. split; [exact Hg |].
      split; [exact Halbum |]. simpl.
      pose proof (getAudioDBInfo_genre (Deezer.artistNameOf t)
                    (Deezer.trackTitleOf t) s1) as Hfb.
      rewrite Hinfo in Hfb. simpl in Hfb. now injection Hfb as ->.
    + eexists _, _, g1, s1. split; [exact Hrun |]. split; [exact Hg1 |].
      split; [exact Halbum |]. simpl.
      unfold strictEq. now destruct (String.eqb_spec g1 Inconnu).
Qed.

End GenreField.

Lemma genre_never_empty_witness :
  exists rsA rsB,
    csvFile (snd (@Spotify.analyzePlaylist TestRuntime.runtime TestRuntime.online
                    "1" 5 "PL" initial)) = Some rsA
    /\ csvFile (snd (@Deezer.analyzePlaylist TestRuntime.runtime TestRuntime.online
                       "1" "PL" initial)) = Some rsB
    /\ length rsA = 4%nat /\ length rsB = 4%nat
    /\ Forall (fun r => genre r <> "") rsA
    /\ Forall (fun r => genre r <> "") rsB.
Proof.
  eexists _, _. split; [vm_compute; reflexivity |].
  split; [vm_compute; reflexivity |].
  split; [reflexivity |]. split; [reflexivity |]. split.
  - apply (proj1 (@genre_never_empty TestRuntime.runtime TestRuntime.online "1" 5
                    "PL" initial _ eq_refl cacheOk_initial)).
    vm_compute. reflexivity.
  - apply (proj1 (proj2 (@genre_never_empty TestRuntime.runtime TestRuntime.online "1" 5
                    "PL" initial _ eq_refl cacheOk_initial))).
    vm_compute. reflexivity.
Defined.

(** ** Fault tolerance of the enrichment calls *)

Section FaultTolerance.
Context `{Runtime}.
Variable W : World.
Variable KEY : string.

(** C7: every enrichment call of both scripts returns in every world and
    every state, never throwing; when its request fails the result is the
    degraded one (the placeholder for a genre, nothing for a tempo, the
    empty list for album genres). So a run that got its tracks completes
    and writes one record per track, whatever the enrichment requests
    do. *)
Theorem enrichment_fault_tolerant (artistName trackTitle artistId : string)
    (optId : option string) (albumId : Z) (s : State) :
  (exists g s',
     Spotify.getGenreFromAudioDB W KEY artistName s = (Ok g, s')
     /\ (primaryAnswer W KEY artistName s = None -> g = Inconnu))
  /\ (exists r s',
        Spotify.getTrackBpmFromAudioDB W KEY artistName trackTitle s = (Ok r, s')
        /\ (tempoAnswer W KEY artistName trackTitle s = None -> r = None))
  /\ (exists g s',
        Spotify.getGenreFromSpotifyById W artistId s = (Ok g, s')
        /\ (spotifyArtist W (length (trace s)) (Spotify.artistUrl artistId) = None ->
            g = Inconnu))
  /\ (exists g s',
        Spotify.getGenreWithFallback W KEY artistName optId s = (Ok g, s')
        /\ (primaryAnswer W KEY artistName s = None ->
            secondaryAnswer W artistName optId s = None -> g = Inconnu))
  /\ (exists info s',
        Deezer.getDeezerAlbumInfo W albumId s = (Ok info, s')
        /\ (albumCache s !! albumId = None -> albumAnswer W albumId s = None ->
            info = {| genres := [] |}))
  /\ (exists info s',
        Deezer.getAudioDBInfo W KEY artistName trackTitle s = (Ok info, s')
        /\ (primaryAnswer W KEY artistName s = None ->
            Deezer.info_genre info = Inconnu))
  /\ (forall fuel id tracks s0,
        truthyStr id = true ->
        Spotify.getPlaylistTracks W fuel id s = (Ok tracks, s0) ->
        exists rs s',
          Spotify.analyzePlaylist W KEY fuel id s = (Ok Completed, s')
          /\ csvFile s' = Some rs /\ length rs = length tracks)
  /\ (forall id tracks,
        truthyStr id = true ->
        deezerPlaylistTracks W (length (trace s)) (Deezer.playlistUrl id)
          = Some tracks ->
        exists rs s',
          Deezer.analyzePlaylist W KEY id s = (Ok Completed, s')
          /\ csvFile s' = Some rs /\ length rs = length tracks).
Proof.
  split; [| split; [| split; [| split; [| split; [| split; [| split]]]]]].
  - rewrite getGenreFromAudioDB_run. unfold primaryAnswer.
    destruct (encodeURIComponent artistName) as [enc |]; eexists _, _;
      (split; [reflexivity |]); [intros -> |]; reflexivity.
  - rewrite getTrackBpmFromAudioDB_run. unfold tempoAnswer.
    destruct (encodeURIComponent artistName) as [encA |];
      [destruct (encodeURIComponent trackTitle) as [encT |] |];
      eexists _, _; (split; [reflexivity |]); [intros -> | |]; reflexivity.
  - rewrite getGenreFromSpotifyById_run.
    destruct (negb (truthyStr artistId) || strictEq artistId "unknown");
      eexists _, _; (split; [reflexivity |]); [| intros ->]; reflexivity.
  - destruct (getGenreWithFallback_run W KEY artistName optId s)
      as (evs & Hrun & _).
    eexists _, _. split; [exact Hrun |]. intros -> ->. simpl.
    unfold resolveGenre_spec. simpl. destruct optId as [id |]; [| reflexivity].
    now destruct (truthyStr id).
  - rewrite getDeezerAlbumInfo_run. unfold albumAnswer.
    destruct (albumCache s !! albumId) as [info |].
    + eexists _, _. split; [reflexivity |]. discriminate.
    + cbv zeta. destruct (deezerAlbum W _ _) as [r |]; eexists _, _;
        (split; [reflexivity |]); [discriminate | reflexivity].
  - rewrite getAudioDBInfo_run. unfold primaryAnswer.
    destruct (encodeURIComponent artistName) as [enc |];
      [change (Deezer.searchUrl KEY enc) with (Spotify.searchUrl KEY enc) |];
      eexists _, _; (split; [reflexivity |]); [intros -> |]; reflexivity.
  - intros fuel id tracks s0 Hid Hfetch.
    destruct (Spotify_analyzePlaylist_run W KEY fuel id s s0 tracks Hid Hfetch)
      as (gs & evs & Hrun & Hlen & _).
    eexists _, _. split; [exact Hrun |]. split; [reflexivity |].
    rewrite sortRecords_length, length_zip_with_l_eq; [reflexivity | now symmetry].
  - intros id tracks Hid Hfetch.
    destruct (Deezer_analyzePlaylist_run W KEY id s tracks Hid Hfetch)
      as (gs & s' & Hrun & Hfile & Hlen & _).
    eexists _, _. split; [exact Hrun |]. split; [exact Hfile |].
    rewrite sortRecords_length, length_zip_with_l_eq; [reflexivity | now symmetry].
Qed.

End FaultTolerance.

Lemma enrichment_fault_tolerant_witness :
  exists rs s',
    @Deezer.analyzePlaylist TestRuntime.runtime TestRuntime.enrichmentDown "1" "PL"
      initial = (Ok Completed, s')
    /\ csvFile s' = Some rs
    /\ length rs = 4%nat.
Proof.
  apply (proj2 (proj2 (proj2 (proj2 (proj2 (proj2 (proj2
           (@enrichment_fault_tolerant TestRuntime.runtime TestRuntime.enrichmentDown
              "1" "Known" "One" "a1" None 7 initial))))))) "PL" TestRuntime.deezerTracks);
    reflexivity.
Defined.

(** ** The one-second pause *)

(** An album whose only genre is named like the placeholder: the album
    lookup yields a non-empty genre, and still the TheAudioDB call is made
    and the pause is inserted. *)
Lemma placeholder_genre_is_followed_by_pause :
  let W := TestRuntime.placeholderGenre in
  let t := TestRuntime.deezerTrack "Song" "Known" 5 65 in
  let lookup := @Deezer.getDeezerAlbumInfo W 5 initial in
  let run := @Deezer.processTrack TestRuntime.runtime W "1" [] t initial in
  fst lookup = Ok {| genres := ["Inconnu"] |}
  /\ fst (@Deezer.genreFromAlbum W (Some 5) initial) = Ok "Inconnu"
  /\ trace (snd run) =
       [Get Axios "https://api.deezer.com/album/5";
        Get Axios "https://theaudiodb.com/api/v1/json/1/search.php?s=Known";
        Sleep 1000]
  /\ pauses (trace (snd run)) = [Sleep 1000].
Proof. vm_compute. repeat split; reflexivity. Qed.

Example spotify_track_two_requests_one_pause :
  trace (snd (@Spotify.processTrack TestRuntime.runtime TestRuntime.online "1" []
                (Spotify.mapTrack
                   {| st_id := "t2"; st_name := "Two"; st_duration_ms := Val (Fin 65000);
                      st_artists := Some [ {| sa_id := "a2"; sa_name := "Other" |} ];
                      st_album := None |}) initial)) =
    [Get Axios "https://theaudiodb.com/api/v1/json/1/search.php?s=Other";
     Get AxiosSpotify "https://api.spotify.com/v1/artists/a2";
     Sleep 1000].
Proof. reflexivity. Qed.

Section Pause.
Context `{Runtime}.
Variable W : World.
Variable KEY : string.

(** C8 (amended): in the Spotify script every processed track is followed
    by exactly one pause of one second, after its enrichment requests (at
    most two) and whatever their number. In the Deezer script the pause is
    inserted exactly when the TheAudioDB fallback call is made, right after
    it, and that is exactly when the genre obtained from the album is the
    placeholder; a track whose album gave another genre gets neither the
    call nor the pause. *)
Theorem pause_per_track (records : list OutputRecord) (tA : Track)
    (tB : DeezerTrack) (s : State) :
  (exists g evs,
     Spotify.processTrack W KEY records tA s =
       (Ok (records ++ [Spotify.makeRecord tA g])%list,
        addEvents s (evs ++ [Sleep 1000]))
     /\ requests evs = evs
     /\ pauses evs = []
     /\ (length evs <= 2)%nat)
  /\ (exists g1 s1 evs1,
        Deezer.genreFromAlbum W (Deezer.albumIdOf tB) s = (Ok g1, s1)
        /\ steps s evs1 s1
        /\ pauses evs1 = []
        /\ ((g1 = Inconnu /\
             exists info evs2,
               Deezer.getAudioDBInfo W KEY (Deezer.artistNameOf tB)
                 (Deezer.trackTitleOf tB) s1 = (Ok info, addEvents s1 evs2)
               /\ pauses evs2 = []
               /\ Deezer.processTrack W KEY records tB s =
                    (Ok (records ++
                         [Deezer.makeRecord tB (Deezer.info_genre info)])%list,
                     addEvents s1 (evs2 ++ [Sleep 1000])))
            \/ (g1 <> Inconnu /\
                Deezer.processTrack W KEY records tB s =
                  (Ok (records ++ [Deezer.makeRecord tB g1])%list, s1)))).
Proof.
  split.
  - destruct (Spotify_processTrack_run W KEY records tA s)
      as (g & evs & Hrun & _ & Hget & Hlen).
    exists g, evs. split; [exact Hrun |].
    split; [now apply requests_of_gets |].
    split; [now apply pauses_of_gets | exact Hlen].
  - destruct (Deezer_processTrack_split W KEY records tB s)
      as (g1 & s1 & evs1 & Hrun & Hsteps & Hp & _ & Hcases).
    exists g1, s1, evs1. split; [exact Hrun |]. split; [exact Hsteps |].
    split; [exact Hp |].
    destruct Hcases as [[-> (info & evs2 & Hinfo & Hp2 & _ & Hproc)] | Hother].
    + left. split; [reflexivity |]. exists info, evs2. auto.
    + right. exact Hother.
Qed.

End Pause.

Lemma pause_per_track_witness :
  let t := TestRuntime.deezerTrack "Song A" "Known" 7 65 in
  exists s1,
    @Deezer.processTrack TestRuntime.runtime TestRuntime.online "1" [] t initial =
      (Ok [Deezer.makeRecord t "Pop, Rock"], s1)
    /\ pauses (trace s1) = [].
Proof.
  cbv zeta.
  destruct (@pause_per_track TestRuntime.runtime TestRuntime.online "1" []
              (Spotify.mapTrack
                 {| st_id := "t"; st_name := "T"; st_duration_ms := Undefined;
                    st_artists := None; st_album := None |})
              (TestRuntime.deezerTrack "Song A" "Known" 7 65) initial)
    as [_ (g1 & s1 & evs1 & Halbum & Hsteps & Hp & Hcases)].
  assert (Hg1 : g1 = "Pop, Rock").
  { vm_compute in Halbum. now injection Halbum as <- _. }
  subst g1. destruct Hcases as [[Hbad _] | [_ Hrun]]; [discriminate Hbad |].
  exists s1. split; [exact Hrun |].
  destruct Hsteps as (Htrace & _). rewrite Htrace. simpl. exact Hp.
Defined.

(** ** A duration of zero *)

Section ZeroDuration.
Context `{Runtime}.
Variable W : World.
Variable KEY : string.

(** C10: a duration of zero is printed as the placeholder, not as 0:00,
    by both scripts. The Spotify script then leaves the seconds column
    empty, while the Deezer script writes the number 0 there. *)
Theorem zero_duration (records : list OutputRecord) (tA : Track) (tB : DeezerTrack)
    (s : State) :
  durationMs tA = Val (Fin 0) ->
  dt_duration tB = Val (Fin 0) ->
  Spotify.formatDurationMs (Val (Fin 0)) = Inconnu
  /\ Deezer.formatDuration (Val (Fin 0)) = Inconnu
  /\ Inconnu <> "0:00"
  /\ (exists r s',
        Spotify.processTrack W KEY records tA s = (Ok (records ++ [r])%list, s')
        /\ duration r = Inconnu
        /\ duration_seconds r = IsStr "")
  /\ (exists r s',
        Deezer.processTrack W KEY records tB s = (Ok (records ++ [r])%list, s')
        /\ duration r = Inconnu
        /\ duration_seconds r = IsNum (Fin 0)).
Proof.
  intros HA HB. split; [reflexivity |]. split; [reflexivity |].
  split; [discriminate |]. split.
  - destruct (Spotify_processTrack_run W KEY records tA s) as (g & evs & Hrun & _).
    eexists _, _. split; [exact Hrun |].
    unfold Spotify.makeRecord. simpl. rewrite HA. split; reflexivity.
  - destruct (Deezer_processTrack_run W KEY records tB s)
      as (g & s' & evs & Hrun & _).
    eexists _, _. split; [exact Hrun |].
    unfold Deezer.makeRecord. simpl. rewrite HB. split; reflexivity.
Qed.

End ZeroDuration.

Lemma zero_duration_witness :
  exists rA rB sA sB,
    @Spotify.processTrack TestRuntime.runtime TestRuntime.online "1" []
      (Spotify.mapTrack
         {| st_id := "t0"; st_name := "Bare"; st_duration_ms := Val (Fin 0);
            st_artists := None; st_album := None |}) initial = (Ok [rA], sA)
    /\ @Deezer.processTrack TestRuntime.runtime TestRuntime.online "1" []
         (TestRuntime.deezerTrack "Song B" "Other" 7 0) initial = (Ok [rB], sB)
    /\ duration rA = "Inconnu" /\ duration_seconds rA = IsStr ""
    /\ duration rB = "Inconnu" /\ duration_seconds rB = IsNum (Fin 0).
Proof.
  destruct (@zero_duration TestRuntime.runtime TestRuntime.online "1" []
              (Spotify.mapTrack
                 {| st_id := "t0"; st_name := "Bare"; st_duration_ms := Val (Fin 0);
                    st_artists := None; st_album := None |})
              (TestRuntime.deezerTrack "Song B" "Other" 7 0) initial
              eq_refl eq_refl)
    as (_ & _ & _ & (rA & sA & HA & HdA & HsA) & (rB & sB & HB & HdB & HsB)).
  exists rA, rB, sA, sB. repeat split; assumption.
Defined.

(** * Further properties of the scripts *)

(** ** Configuration and the outcome of a run *)

Section Outcome.
Context `{Runtime}.
Variable W : World.

(** With a playlist identifier the Spotify run ends normally unless its
    pagination loop is still running: no error leaves [analyzePlaylist]. *)
Lemma Spotify_analyzePlaylist_outcome (KEY : string) (fuel : nat) (id : string)
    (s : State) :
  truthyStr id = true ->
  fst (Spotify.analyzePlaylist W KEY fuel id s) = Ok Completed
  \/ fst (Spotify.analyzePlaylist W KEY fuel id s) = OutOfFuel.
Proof.
  intros Hid.
  destruct (Spotify.getPlaylistTracks W fuel id s) as [[tracks | e |] s0] eqn:Hfetch.
  - destruct (Spotify_analyzePlaylist_run W KEY fuel id s s0 tracks Hid Hfetch)
      as (gs & evs & Hrun & _).
    left. now rewrite Hrun.
  - left. unfold Spotify.analyzePlaylist. rewrite Hid. simpl.
    unfold try_catch, bind. now rewrite Hfetch.
  - right. unfold Spotify.analyzePlaylist. rewrite Hid. simpl.
    unfold try_catch, bind. now rewrite Hfetch.
Qed.

Lemma Deezer_analyzePlaylist_outcome (KEY : string) (id : string) (s : State) :
  truthyStr id = true ->
  fst (Deezer.analyzePlaylist W KEY id s) = Ok Completed.
Proof.
  intros Hid.
  destruct (deezerPlaylistTracks W (length (trace s)) (Deezer.playlistUrl id))
    as [tracks |] eqn:Hfetch.
  - destruct (Deezer_analyzePlaylist_run W KEY id s tracks Hid Hfetch)
      as (gs & s' & Hrun & _).
    now rewrite Hrun.
  - unfold Deezer.analyzePlaylist. rewrite Hid. simpl.
    unfold try_catch, bind, Deezer.getPlaylistTracks. now rewrite get_run, Hfetch.
Qed.

(** X1: the Spotify script started without a token, or without a playlist
    identifier (unset or empty), exits with code 1 and has done nothing: no
    request, no pause, no file, the state is the one it started in. With
    both present it never exits with a code and never fails: it ends
    normally (or its pagination loop is still running). *)
Theorem spotifyScript_configuration (env : Env) (fuel : nat) (s : State) :
  (truthyOptStr (SPOTIFY_TOKEN env) = false
   \/ truthyOptStr (SPOTIFY_PLAYLIST_ID env) = false ->
   spotifyScript W env fuel s = (Ok (Exited 1), s))
  /\ (truthyOptStr (SPOTIFY_TOKEN env) = true ->
      truthyOptStr (SPOTIFY_PLAYLIST_ID env) = true ->
      fst (spotifyScript W env fuel s) = Ok Completed
      \/ fst (spotifyScript W env fuel s) = OutOfFuel).
Proof.
  unfold spotifyScript. split.
  - intros [Htok | Hid].
    + now rewrite Htok.
    + destruct (truthyOptStr (SPOTIFY_TOKEN env)); [| reflexivity]. simpl.
      unfold Spotify.analyzePlaylist, envOr.
      destruct (SPOTIFY_PLAYLIST_ID env) as [[| c id] |]; try discriminate;
        reflexivity.
  - intros Htok Hid. rewrite Htok. simpl.
    apply Spotify_analyzePlaylist_outcome.
    destruct (SPOTIFY_PLAYLIST_ID env) as [[| c id] |]; try discriminate.
    reflexivity.
Qed.

(** X2: the Deezer script started without a playlist identifier (unset or
    empty) exits with code 1 and has done nothing; with one it always ends
    normally, whatever the servers do. *)
Theorem deezerScript_configuration (env : Env) (s : State) :
  (truthyOptStr (DEEZER_PLAYLIST_ID env) = false ->
   deezerScript W env s = (Ok (Exited 1), s))
  /\ (truthyOptStr (DEEZER_PLAYLIST_ID env) = true ->
      fst (deezerScript W env s) = Ok Completed).
Proof.
  unfold deezerScript. split.
  - intros Hid. unfold Deezer.analyzePlaylist, envOr.
    destruct (DEEZER_PLAYLIST_ID env) as [[| c id] |]; try discriminate;
      reflexivity.
  - intros Hid. apply Deezer_analyzePlaylist_outcome.
    destruct (DEEZER_PLAYLIST_ID env) as [[| c id] |]; try discriminate.
    reflexivity.
Qed.

End Outcome.

Lemma spotifyScript_configuration_witness :
  @spotifyScript TestRuntime.runtime TestRuntime.online
    {| SPOTIFY_PLAYLIST_ID := Some "PL"; SPOTIFY_TOKEN := Some "";
       DEEZER_PLAYLIST_ID := None; THEAUDIODB_API_KEY := None |} 5 initial =
    (Ok (Exited 1), initial)
  /\ fst (@spotifyScript TestRuntime.runtime TestRuntime.online
            {| SPOTIFY_PLAYLIST_ID := Some "PL"; SPOTIFY_TOKEN := Some "tok";
               DEEZER_PLAYLIST_ID := None; THEAUDIODB_API_KEY := None |} 5 initial)
     = Ok Completed.
Proof.
  split.
  - apply (proj1 (@spotifyScript_configuration TestRuntime.runtime TestRuntime.online
                    _ 5 initial)).
    left. reflexivity.
  - destruct (proj2 (@spotifyScript_configuration TestRuntime.runtime
                       TestRuntime.online
                       {| SPOTIFY_PLAYLIST_ID := Some "PL"; SPOTIFY_TOKEN := Some "tok";
                          DEEZER_PLAYLIST_ID := None; THEAUDIODB_API_KEY := None |}
                       5 initial) eq_refl eq_refl) as [Hok | Hfuel].
    + exact Hok.
    + vm_compute in Hfuel. discriminate Hfuel.
Defined.

Lemma deezerScript_configuration_witness :
  @deezerScript TestRuntime.runtime TestRuntime.online
    {| SPOTIFY_PLAYLIST_ID := None; SPOTIFY_TOKEN := None;
       DEEZER_PLAYLIST_ID := None; THEAUDIODB_API_KEY := None |} initial =
    (Ok (Exited 1), initial)
  /\ fst (@deezerScript TestRuntime.runtime TestRuntime.enrichmentDown
            {| SPOTIFY_PLAYLIST_ID := None; SPOTIFY_TOKEN := None;
               DEEZER_PLAYLIST_ID := Some "PL"; THEAUDIODB_API_KEY := Some "" |}
            initial) = Ok Completed.
Proof.
  split.
  - apply (proj1 (@deezerScript_configuration TestRuntime.runtime TestRuntime.online
                    _ initial)).
    reflexivity.
  - apply (proj2 (@deezerScript_configuration TestRuntime.runtime
                    TestRuntime.enrichmentDown _ initial)).
    reflexivity.
Defined.

(** ** When the playlist cannot be fetched *)

Section FetchFailure.
Context `{Runtime}.
Variable W : World.
Variable KEY : string.

Lemma getPlaylistTracks_while_rejected (pages : list PlaylistPage) :
  forall fuel url tracks s,
    truthyStr url = true ->
    servesUntilRejected W (length (trace s)) url pages ->
    (length pages < fuel)%nat ->
    Spotify.getPlaylistTracks_while W fuel (Some url) tracks s =
      (Throw (RequestError (lastUrl url pages)),
       addEvents s (map (Get AxiosSpotify) (pageUrls url pages ++ [lastUrl url pages]))).
Proof.
  induction pages as [| p rest IH]; intros fuel url tracks s Hurl Hserves Hfuel;
    (destruct fuel as [| fuel]; [simpl in Hfuel; lia |]);
    cbn [Spotify.getPlaylistTracks_while truthyOptStr]; rewrite Hurl;
    change (default "" (Some url)) with url; unfold bind; rewrite get_run.
  - simpl in Hserves. rewrite Hserves. reflexivity.
  - destruct Hserves as (Hp & u & Hnext & Hu & Hrest). rewrite Hp, Hnext.
    rewrite (IH fuel u).
    + rewrite addEvents_app. cbn [pageUrls lastUrl]. rewrite Hnext. reflexivity.
    + exact Hu.
    + unfold addEvents. simpl. rewrite length_app, Nat.add_1_r. exact Hrest.
    + simpl in Hfuel. lia.
Qed.

(** X3: pagination is all or nothing. When the request for a page is
    rejected after any number of pages were received, [getPlaylistTracks]
    throws, and the run of the Spotify script ends normally having issued
    just the page requests (one per page received, and the rejected one): no
    enrichment request, no pause, and no file, so that the tracks already
    received are lost. *)
Theorem pagination_failure_discards_everything (fuel : nat) (PLAYLIST_ID : string)
    (pages : list PlaylistPage) (s : State) :
  truthyStr PLAYLIST_ID = true ->
  servesUntilRejected W (length (trace s)) (Spotify.playlistUrl PLAYLIST_ID) pages ->
  (length pages < fuel)%nat ->
  let url := Spotify.playlistUrl PLAYLIST_ID in
  let evs := map (Get AxiosSpotify) (pageUrls url pages ++ [lastUrl url pages]) in
  Spotify.getPlaylistTracks W fuel PLAYLIST_ID s =
    (Throw (RequestError (lastUrl url pages)), addEvents s evs)
  /\ Spotify.analyzePlaylist W KEY fuel PLAYLIST_ID s = (Ok Completed, addEvents s evs)
  /\ csvFile (addEvents s evs) = csvFile s
  /\ pauses evs = []
  /\ length evs = S (length pages).
Proof.
  intros Hid Hserves Hfuel url evs.
  assert (Hfetch : Spotify.getPlaylistTracks W fuel PLAYLIST_ID s =
                   (Throw (RequestError (lastUrl url pages)), addEvents s evs)).
  { unfold Spotify.getPlaylistTracks.
    now rewrite (getPlaylistTracks_while_rejected pages). }
  split; [exact Hfetch |]. split; [| split; [reflexivity | split]].
  - unfold Spotify.analyzePlaylist. rewrite Hid. simpl.
    unfold try_catch, bind. now rewrite Hfetch.
  - apply pauses_of_gets, Forall_map, Forall_forall. reflexivity.
  - subst evs. rewrite length_map, length_app, pageUrls_length. simpl. lia.
Qed.


End FetchFailure.

(** Two pages are served, the third request is rejected. *)
Lemma pagination_failure_discards_everything_witness :
  let W := {| spotifyPlaylistTracks := fun t url =>
                if (t <? 2)%nat then TestRuntime.pagesOf url else None;
              spotifyArtist := fun _ _ => None;
              audioDBSearch := fun _ _ => None;
              audioDBSearchTrack := fun _ _ => None;
              deezerPlaylistTracks := fun _ _ => None;
              deezerAlbum := fun _ _ => None |} in
  @Spotify.analyzePlaylist TestRuntime.runtime W "1" 5 "PL" initial =
    (Ok Completed,
     addEvents initial
       [Get AxiosSpotify "https://api.spotify.com/v1/playlists/PL/tracks?limit=100";
        Get AxiosSpotify "https://page/2";
        Get AxiosSpotify "https://page/3"]).
Proof.
  cbv zeta.
  refine (proj1 (proj2 (@pagination_failure_discards_everything TestRuntime.runtime
           _ "1" 5 "PL" [TestRuntime.page1; TestRuntime.page2] initial
           eq_refl _ _))).
  - simpl. split; [reflexivity |].
    eexists. split; [reflexivity |]. split; [reflexivity |].
    split; [reflexivity |].
    eexists. split; [reflexivity |]. split; reflexivity.
  - simpl. lia.
Defined.


(** ** Which requests a genre lookup makes *)

Section LookupRequests.
Context `{Runtime}.
Variable W : World.
Variable KEY : string.

Lemma getGenreWithFallback_trace (artistName : string)
    (artistId : option string) (s : State) :
  snd (Spotify.getGenreWithFallback W KEY artistName artistId s) =
    addEvents s (fallbackRequests W KEY artistName artistId s).
Proof.
  unfold Spotify.getGenreWithFallback, bind, fallbackRequests, needsSecondary,
    primaryRequest, primaryAnswer.
  rewrite getGenreFromAudioDB_run.
  destruct (encodeURIComponent artistName) as [enc |].
  - set (p := firstArtistGenre _).
    rewrite (usableGenre_orInconnu p). fold (usable (orInconnu p)).
    destruct (usable (orInconnu p)); [reflexivity |].
    destruct artistId as [id |]; simpl; [| reflexivity].
    destruct (truthyStr id) eqn:Hid; simpl; [| reflexivity].
    rewrite getGenreFromSpotifyById_run, Hid. simpl.
    destruct (strictEq id "unknown"); simpl; [reflexivity |].
    set (q := default Inconnu _).
    destruct (truthyStr q && negb (strictEq q Inconnu)); simpl;
      now rewrite addEvents_app.
  - change (usableGenre (firstArtistGenre None)) with (@None string).
    replace (truthyStr Inconnu && negb (strictEq Inconnu Inconnu)) with false
      by reflexivity.
    destruct artistId as [id |]; simpl; [| now rewrite addEvents_nil].
    destruct (truthyStr id) eqn:Hid; simpl; [| now rewrite addEvents_nil].
    rewrite getGenreFromSpotifyById_run, Hid. simpl.
    destruct (strictEq id "unknown"); simpl; [now rewrite addEvents_nil |].
    set (q := default Inconnu _).
    destruct (truthyStr q && negb (strictEq q Inconnu)); reflexivity.
Qed.

Lemma fallbackRequests_no_secondary (artistName : string)
    (artistId : option string) (s : State) :
  artistId = None \/ artistId = Some "" \/ artistId = Some "unknown" ->
  fallbackRequests W KEY artistName artistId s = primaryRequest KEY artistName.
Proof.
  intros Hid. unfold fallbackRequests, needsSecondary.
  destruct (usableGenre _); [apply app_nil_r |].
  destruct Hid as [-> | [-> | ->]]; apply app_nil_r.
Qed.

(** The trace of one track of the Spotify loop. *)
Lemma Spotify_processTrack_trace (records : list OutputRecord) (t : Track)
    (s : State) :
  exists g,
    Spotify.processTrack W KEY records t s =
      (Ok (records ++ [Spotify.makeRecord t g])%list,
       addEvents s (fallbackRequests W KEY (Spotify.artistNameOf t)
                      (Spotify.artistIdOf t) s ++ [Sleep 1000])).
Proof.
  destruct (getGenreWithFallback_run W KEY (Spotify.artistNameOf t)
              (Spotify.artistIdOf t) s) as (evs & Hrun & _).
  pose proof (getGenreWithFallback_trace (Spotify.artistNameOf t)
                (Spotify.artistIdOf t) s) as Htrace.
  rewrite Hrun in Htrace. simpl in Htrace.
  eexists. unfold Spotify.processTrack, bind. rewrite Hrun, Htrace.
  unfold sleep, emit, ret. now rewrite addEvents_app.
Qed.

(** X5: the requests of [getGenreWithFallback] are exactly these, in this
    order: the TheAudioDB search (unless the name cannot be encoded), then
    one request to Spotify's artist endpoint if and only if TheAudioDB gave
    no usable genre and an artist identifier other than the placeholder
    ['unknown'] was supplied. In particular Spotify is never asked once
    TheAudioDB gave a usable genre, nor for the placeholder identifier. *)
Theorem getGenreWithFallback_requests (artistName : string)
    (artistId : option string) (s : State) :
  snd (Spotify.getGenreWithFallback W KEY artistName artistId s) =
    addEvents s (fallbackRequests W KEY artistName artistId s)
  /\ (forall g,
        usableGenre (firstArtistGenre (primaryAnswer W KEY artistName s)) = Some g ->
        fallbackRequests W KEY artistName artistId s = primaryRequest KEY artistName)
  /\ (artistId = None \/ artistId = Some "" \/ artistId = Some "unknown" ->
      fallbackRequests W KEY artistName artistId s = primaryRequest KEY artistName).
Proof.
  split; [apply getGenreWithFallback_trace | split].
  - intros g Hg. unfold fallbackRequests, needsSecondary. rewrite Hg.
    apply app_nil_r.
  - apply fallbackRequests_no_secondary.
Qed.

(** X6: [getAudioDBInfo] of the Deezer script never looks at the track
    title: it makes the request, and returns the genre, that
    [getGenreFromAudioDB] of the Spotify script makes and returns for the
    same artist. *)
Theorem getAudioDBInfo_is_artist_lookup (artistName trackTitle : string) (s : State) :
  (forall otherTitle,
     Deezer.getAudioDBInfo W KEY artistName otherTitle s =
     Deezer.getAudioDBInfo W KEY artistName trackTitle s)
  /\ exists g s',
       Spotify.getGenreFromAudioDB W KEY artistName s = (Ok g, s')
       /\ Deezer.getAudioDBInfo W KEY artistName trackTitle s =
            (Ok {| Deezer.info_genre := g |}, s').
Proof.
  split.
  - intros otherTitle. now rewrite !getAudioDBInfo_run.
  - rewrite getAudioDBInfo_run, getGenreFromAudioDB_run.
    destruct (encodeURIComponent artistName) as [enc |]; eexists _, _;
      split; reflexivity.
Qed.

End LookupRequests.

Example fallback_requests_known :
  @fallbackRequests TestRuntime.runtime TestRuntime.online "1" "Known" (Some "a1")
    initial =
  [Get Axios "https://theaudiodb.com/api/v1/json/1/search.php?s=Known"].
Proof. reflexivity. Qed.

Example fallback_requests_other :
  @fallbackRequests TestRuntime.runtime TestRuntime.online "1" "Other" (Some "a2")
    initial =
  [Get Axios "https://theaudiodb.com/api/v1/json/1/search.php?s=Other";
   Get AxiosSpotify "https://api.spotify.com/v1/artists/a2"].
Proof. reflexivity. Qed.

Lemma getGenreWithFallback_requests_witness :
  @fallbackRequests TestRuntime.runtime TestRuntime.online "1" "Known" (Some "a1")
    initial = @primaryRequest TestRuntime.runtime "1" "Known"
  /\ @fallbackRequests TestRuntime.runtime TestRuntime.online "1" "Other"
       (Some "unknown") initial = @primaryRequest TestRuntime.runtime "1" "Other".
Proof.
  split.
  - apply (proj1 (proj2 (@getGenreWithFallback_requests TestRuntime.runtime
                           TestRuntime.online "1" "Known" (Some "a1") initial))
             "Rock").
    reflexivity.
  - apply (proj2 (proj2 (@getGenreWithFallback_requests TestRuntime.runtime
                           TestRuntime.online "1" "Other" (Some "unknown") initial))).
    right. right. reflexivity.
Defined.

(** ** Tracks with missing parts *)

Section MissingParts.
Context `{Runtime}.
Variable W : World.
Variable KEY : string.

(** X7: a Spotify track without artists (no array, or an empty one) still
    gives a record; its artist column is the placeholder. The placeholder
    name itself is what TheAudioDB is searched for, and Spotify's artist
    endpoint is not asked: the only events are that one search request (if
    the name can be encoded) and the pause. Without an album object the
    album column is the placeholder too. *)
Theorem track_without_artists (st : SpotifyTrack) (records : list OutputRecord)
    (s : State) :
  st_artists st = None \/ st_artists st = Some [] ->
  let t := Spotify.mapTrack st in
  exists g,
    Spotify.processTrack W KEY records t s =
      (Ok (records ++ [Spotify.makeRecord t g])%list,
       addEvents s (primaryRequest KEY Inconnu ++ [Sleep 1000]))
    /\ r_artist (Spotify.makeRecord t g) = Inconnu
    /\ title (Spotify.makeRecord t g) = st_name st
    /\ (st_album st = None -> r_album (Spotify.makeRecord t g) = Inconnu).
Proof.
  intros Hart t.
  assert (Hname : Spotify.artistNameOf t = Inconnu).
  { unfold Spotify.artistNameOf, t. simpl. now destruct Hart as [-> | ->]. }
  assert (Hid : Spotify.artistIdOf t = Some "unknown").
  { unfold Spotify.artistIdOf, t. simpl. now destruct Hart as [-> | ->]. }
  destruct (Spotify_processTrack_trace W KEY records t s) as (g & Hrun).
  rewrite Hname, Hid in Hrun.
  rewrite fallbackRequests_no_secondary in Hrun by auto.
  exists g. split; [exact Hrun |]. split; [| split].
  - unfold t. simpl. now destruct Hart as [-> | ->].
  - reflexivity.
  - intros Halb. unfold t. simpl. now rewrite Halb.
Qed.

(** X8: a Deezer track without an album identifier (no album object, no
    identifier, or the identifier 0) makes no album request and leaves the
    cache as it is; the TheAudioDB call is always made for it and followed
    by the pause, and its genre is what TheAudioDB gives, or the
    placeholder. *)
Theorem track_without_album (t : DeezerTrack) (records : list OutputRecord)
    (s : State) :
  Deezer.albumIdOf t = None \/ Deezer.albumIdOf t = Some 0 ->
  let g := orInconnu (firstArtistGenre
                        (primaryAnswer W KEY (Deezer.artistNameOf t) s)) in
  Deezer.processTrack W KEY records t s =
    (Ok (records ++ [Deezer.makeRecord t g])%list,
     addEvents s (primaryRequest KEY (Deezer.artistNameOf t) ++ [Sleep 1000])).
Proof.
  intros Hid g. subst g.
  unfold Deezer.processTrack, bind, Deezer.genreFromAlbum.
  replace (Deezer.truthyId (Deezer.albumIdOf t)) with false
    by (now destruct Hid as [-> | ->]).
  cbn [ret]. unfold Deezer.genreWithFallback, bind.
  replace (strictEq Inconnu Inconnu) with true by reflexivity.
  rewrite getAudioDBInfo_run. unfold primaryRequest, primaryAnswer.
  destruct (encodeURIComponent (Deezer.artistNameOf t)) as [enc |].
  - unfold sleep, emit, ret. now rewrite addEvents_app.
  - reflexivity.
Qed.

(** X9: a Deezer track whose album is in the cache with a genre other than
    the placeholder costs nothing: no request, no pause, the state is left
    exactly as it was, and the genre is the cached names joined by a comma
    and a space. *)
Theorem cached_album_costs_nothing (t : DeezerTrack) (albumId : Z) (info : AlbumInfo)
    (records : list OutputRecord) (s : State) :
  Deezer.albumIdOf t = Some albumId ->
  albumId <> 0 ->
  albumCache s !! albumId = Some info ->
  genres info <> [] ->
  join ", " (genres info) <> Inconnu ->
  Deezer.processTrack W KEY records t s =
    (Ok (records ++ [Deezer.makeRecord t (join ", " (genres info))])%list, s).
Proof.
  intros Hid Hnz Hc Hne Hjoin.
  unfold Deezer.processTrack, bind, Deezer.genreFromAlbum. rewrite Hid.
  replace (Deezer.truthyId (Some albumId)) with true
    by (simpl; now destruct (Z.eqb_spec albumId 0)).
  unfold bind. rewrite getDeezerAlbumInfo_run. cbn [default from_option id].
  rewrite Hc, album_genre_run.
  replace (0 <? length (genres info))%nat with true
    by (destruct (genres info); [contradiction | reflexivity]).
  unfold Deezer.genreWithFallback, strictEq.
  destruct (String.eqb_spec (join ", " (genres info)) Inconnu); [contradiction |].
  reflexivity.
Qed.

End MissingParts.

Lemma track_without_artists_witness :
  exists g s',
    @Spotify.processTrack TestRuntime.runtime TestRuntime.online "1" []
      (Spotify.mapTrack
         {| st_id := "t0"; st_name := "Bare"; st_duration_ms := Val (Fin 0);
            st_artists := Some []; st_album := None |}) initial
      = (Ok [ {| title := "Bare"; r_artist := "Inconnu"; r_album := "Inconnu";
                 genre := g; duration := "Inconnu"; duration_seconds := IsStr "" |} ],
         s')
    /\ trace s' = [Get Axios "https://theaudiodb.com/api/v1/json/1/search.php?s=Inconnu";
                   Sleep 1000].
Proof.
  destruct (@track_without_artists TestRuntime.runtime TestRuntime.online "1"
              {| st_id := "t0"; st_name := "Bare"; st_duration_ms := Val (Fin 0);
                 st_artists := Some []; st_album := None |} [] initial)
    as (g & Hrun & _); [right; reflexivity |].
  eexists g, _. split; [exact Hrun | reflexivity].
Defined.

Lemma track_without_album_witness :
  @Deezer.processTrack TestRuntime.runtime TestRuntime.online "1" []
    (TestRuntime.deezerTrack "Song" "Known" 0 65) initial =
    (Ok [Deezer.makeRecord (TestRuntime.deezerTrack "Song" "Known" 0 65) "Rock"],
     addEvents initial
       [Get Axios "https://theaudiodb.com/api/v1/json/1/search.php?s=Known";
        Sleep 1000]).
Proof.
  apply (@track_without_album TestRuntime.runtime TestRuntime.online "1"
           (TestRuntime.deezerTrack "Song" "Known" 0 65) [] initial).
  right. reflexivity.
Defined.

Lemma cached_album_costs_nothing_witness :
  let s := withCache initial 7 {| genres := ["Pop"; "Rock"] |} in
  @Deezer.processTrack TestRuntime.runtime TestRuntime.offline "1" []
    (TestRuntime.deezerTrack "Song A" "Known" 7 65) s =
    (Ok [Deezer.makeRecord (TestRuntime.deezerTrack "Song A" "Known" 7 65)
           "Pop, Rock"], s).
Proof.
  cbv zeta.
  apply (@cached_album_costs_nothing TestRuntime.runtime TestRuntime.offline "1"
           (TestRuntime.deezerTrack "Song A" "Known" 7 65) 7
           {| genres := ["Pop"; "Rock"] |} [] _ eq_refl).
  - lia.
  - reflexivity.
  - discriminate.
  - discriminate.
Defined.

(** ** The album cache over a whole run *)

Section CacheOverRun.
Context `{Runtime}.
Variable W : World.
Variable KEY : string.

Lemma Deezer_loop_cache (tracks : list DeezerTrack) (s : State) :
  exists acc s' evs,
    forOf (Deezer.processTrack W KEY) tracks [] s = (Ok acc, s')
    /\ steps s evs s'
    /\ (cacheOk s -> cacheOk s').
Proof.
  pose (I := fun (done : list DeezerTrack) (acc : list OutputRecord) (s' : State) =>
    exists evs, steps s evs s' /\ (cacheOk s -> cacheOk s')).
  destruct (forOf_inv (Deezer.processTrack W KEY) I) with
    (xs := tracks) (done := @nil DeezerTrack) (acc := @nil OutputRecord) (s := s)
    as (acc & s' & Hrun & evs & Hsteps & Hok).
  - intros done x acc s0 (evs & Hsteps & Hok).
    destruct (Deezer_processTrack_run W KEY acc x s0)
      as (g & s1 & evs' & Hrun & Hsteps' & _ & Hok').
    eexists _, s1. split; [exact Hrun |]. exists (evs ++ evs')%list.
    split; [eapply steps_trans; eassumption |].
    intros Hc. apply Hok', Hok, Hc.
  - exists []. split; [apply steps_refl | auto].
  - exists acc, s', evs. auto.
Qed.

(** X10: the Deezer script only ever adds to its album cache. A lookup of
    one album leaves the entries of all other albums as they are, and over
    a whole run no entry is removed or changed; if all cached genre names
    were non-empty before the run, they are non-empty after it. *)
Theorem Deezer_run_keeps_cache (PLAYLIST_ID : string) (albumId : Z) (s : State) :
  (forall k, k <> albumId ->
     albumCache (snd (Deezer.getDeezerAlbumInfo W albumId s)) !! k = albumCache s !! k)
  /\ albumCache s ⊆ albumCache (snd (Deezer.analyzePlaylist W KEY PLAYLIST_ID s))
  /\ (cacheOk s -> cacheOk (snd (Deezer.analyzePlaylist W KEY PLAYLIST_ID s))).
Proof.
  split.
  - intros k Hk. rewrite getDeezerAlbumInfo_run.
    destruct (albumCache s !! albumId); [reflexivity |].
    cbv zeta. destruct (deezerAlbum W _ _); [| reflexivity].
    simpl. now rewrite lookup_insert_ne.
  - unfold Deezer.analyzePlaylist.
    destruct (truthyStr PLAYLIST_ID); simpl; [| split; [reflexivity | auto]].
    unfold try_catch, bind, Deezer.getPlaylistTracks. rewrite get_run.
    destruct (deezerPlaylistTracks W _ _) as [tracks |];
      [| split; [reflexivity | auto]].
    destruct (Deezer_loop_cache tracks
                (addEvents s [Get Axios (Deezer.playlistUrl PLAYLIST_ID)]))
      as (acc & s' & evs & Hloop & (_ & _ & Hsub) & Hok).
    rewrite Hloop. simpl. split; [exact Hsub | exact Hok].
Qed.

End CacheOverRun.

Lemma Deezer_run_keeps_cache_witness :
  let s := withCache initial 42 {| genres := ["Jazz"] |} in
  albumCache (snd (@Deezer.analyzePlaylist TestRuntime.runtime TestRuntime.online
                     "1" "PL" s)) !! 42 = Some {| genres := ["Jazz"] |}.
Proof.
  cbv zeta.
  eapply lookup_weaken;
    [| apply (@Deezer_run_keeps_cache TestRuntime.runtime TestRuntime.online "1"
                "PL" 7)].
  reflexivity.
Defined.

(** ** How many requests and pauses a run makes *)

Section Counts.
Context `{Runtime}.
Variable W : World.
Variable KEY : string.

Lemma Spotify_loop_counts (tracks : list Track) (s : State) :
  exists gs evs,
    forOf (Spotify.processTrack W KEY) tracks [] s =
      (Ok (zip_with Spotify.makeRecord tracks gs), addEvents s evs)
    /\ pauses evs = repeat (Sleep 1000) (length tracks)
    /\ (length (requests evs) <= 2 * length tracks)%nat.
Proof.
  pose (I := fun (done : list Track) (acc : list OutputRecord) (s' : State) =>
    exists gs evs,
      acc = zip_with Spotify.makeRecord done gs
      /\ s' = addEvents s evs
      /\ length gs = length done
      /\ pauses evs = repeat (Sleep 1000) (length done)
      /\ (length (requests evs) <= 2 * length done)%nat).
  destruct (forOf_inv (Spotify.processTrack W KEY) I) with
    (xs := tracks) (done := @nil Track) (acc := @nil OutputRecord) (s := s)
    as (acc & s' & Hrun & gs & evs & -> & -> & _ & Hp & Hr).
  - intros done x acc s0 (gs & evs & -> & -> & Hlen & Hp & Hr).
    destruct (Spotify_processTrack_run W KEY (zip_with Spotify.makeRecord done gs) x
                (addEvents s evs)) as (g & evs' & Hrun & _ & Hget & Hle).
    eexists _, _. split; [exact Hrun |].
    exists (gs ++ [g])%list, (evs ++ evs' ++ [Sleep 1000])%list.
    split; [| split; [| split; [| split]]].
    + rewrite zip_with_app by (symmetry; exact Hlen). reflexivity.
    + now rewrite addEvents_app.
    + rewrite !length_app, Hlen. reflexivity.
    + rewrite !pauses_app, Hp, (pauses_of_gets evs' Hget), length_app.
      simpl. now rewrite repeat_app.
    + rewrite !requests_app, (requests_of_gets evs' Hget), !length_app.
      simpl. lia.
  - exists [], []. rewrite addEvents_nil. repeat split; simpl; lia.
  - exists gs, evs. auto.
Qed.

(** X11: a run of the Spotify script that got [n] tracks pauses exactly [n]
    times, one second each, and makes at most [2 n] enrichment requests
    after the page requests. *)
Theorem Spotify_run_counts (fuel : nat) (PLAYLIST_ID : string) (s s0 : State)
    (tracks : list Track) :
  truthyStr PLAYLIST_ID = true ->
  Spotify.getPlaylistTracks W fuel PLAYLIST_ID s = (Ok tracks, s0) ->
  exists evs,
    trace (snd (Spotify.analyzePlaylist W KEY fuel PLAYLIST_ID s)) =
      (trace s0 ++ evs)%list
    /\ pauses evs = repeat (Sleep 1000) (length tracks)
    /\ (length (requests evs) <= 2 * length tracks)%nat.
Proof.
  intros Hid Hfetch.
  destruct (Spotify_loop_counts tracks s0) as (gs & evs & Hloop & Hp & Hr).
  exists evs. unfold Spotify.analyzePlaylist. rewrite Hid. simpl.
  unfold try_catch, bind. rewrite Hfetch, Hloop. simpl. auto.
Qed.

Lemma Deezer_processTrack_counts (records : list OutputRecord) (t : DeezerTrack)
    (s : State) :
  exists acc s' evs,
    Deezer.processTrack W KEY records t s = (Ok acc, s')
    /\ trace s' = (trace s ++ evs)%list
    /\ (length (requests evs) <= 2)%nat
    /\ (length (pauses evs) <= 1)%nat
    /\ Forall (fun ev => ev = Sleep 1000) (pauses evs).
Proof.
  destruct (genreFromAlbum_run W (Deezer.albumIdOf t) s)
    as (g1 & s1 & evs1 & Hrun & (Htr & _) & Hget & Hlen & _).
  pose proof (genreWithFallback_run W KEY g1 (Deezer.artistNameOf t)
                (Deezer.trackTitleOf t) s1) as Hfb.
  unfold Deezer.processTrack, bind. rewrite Hrun.
  destruct (strictEq g1 Inconnu).
  - destruct Hfb as (info & evs2 & _ & Hget2 & Hlen2 & _ & Hfb). rewrite Hfb.
    eexists _, _, (evs1 ++ evs2 ++ [Sleep 1000])%list. split; [reflexivity |].
    split; [simpl; rewrite Htr, <- app_assoc; reflexivity |].
    rewrite !requests_app, !pauses_app, (requests_of_gets _ Hget),
      (requests_of_gets _ Hget2), (pauses_of_gets _ Hget), (pauses_of_gets _ Hget2),
      !length_app.
    simpl. split; [lia |]. split; [lia |]. repeat constructor.
  - rewrite Hfb. eexists _, _, evs1. split; [reflexivity |].
    split; [exact Htr |].
    rewrite (requests_of_gets _ Hget), (pauses_of_gets _ Hget).
    simpl. split; [lia |]. split; [lia | constructor].
Qed.

(** X12: a run of the Deezer script that got [n] tracks makes, after the
    playlist request, at most [2 n] requests (one album and one TheAudioDB
    request per track) and at most [n] pauses, each of one second. *)
Theorem Deezer_run_counts (PLAYLIST_ID : string) (s : State)
    (tracks : list DeezerTrack) :
  truthyStr PLAYLIST_ID = true ->
  deezerPlaylistTracks W (length (trace s)) (Deezer.playlistUrl PLAYLIST_ID)
    = Some tracks ->
  exists evs,
    trace (snd (Deezer.analyzePlaylist W KEY PLAYLIST_ID s)) =
      (trace s ++ Get Axios (Deezer.playlistUrl PLAYLIST_ID) :: evs)%list
    /\ (length (requests evs) <= 2 * length tracks)%nat
    /\ (length (pauses evs) <= length tracks)%nat
    /\ Forall (fun ev => ev = Sleep 1000) (pauses evs).
Proof.
  intros Hid Hfetch.
  pose (I := fun (done : list DeezerTrack) (acc : list OutputRecord) (s' : State) =>
    exists evs,
      trace s' = (trace s ++ Get Axios (Deezer.playlistUrl PLAYLIST_ID) :: evs)%list
      /\ (length (requests evs) <= 2 * length done)%nat
      /\ (length (pauses evs) <= length done)%nat
      /\ Forall (fun ev => ev = Sleep 1000) (pauses evs)).
  destruct (forOf_inv (Deezer.processTrack W KEY) I) with
    (xs := tracks) (done := @nil DeezerTrack) (acc := @nil OutputRecord)
    (s := addEvents s [Get Axios (Deezer.playlistUrl PLAYLIST_ID)])
    as (acc & s' & Hloop & evs & Htr & Hr & Hp & Hall).
  - intros done x acc s0 (evs & Htr & Hr & Hp & Hall).
    destruct (Deezer_processTrack_counts acc x s0)
      as (acc' & s1 & evs' & Hrun & Htr' & Hr' & Hp' & Hall').
    eexists _, _. split; [exact Hrun |]. exists (evs ++ evs')%list.
    split; [rewrite Htr', Htr, <- app_assoc; reflexivity |].
    rewrite requests_app, pauses_app, !length_app. simpl.
    split; [lia |]. split; [lia |]. now apply Forall_app.
  - exists []. simpl. repeat split; try lia. constructor.
  - exists evs. unfold Deezer.analyzePlaylist. rewrite Hid. simpl.
    unfold try_catch, bind, Deezer.getPlaylistTracks. rewrite get_run, Hfetch, Hloop.
    simpl. auto.
Qed.

End Counts.

Lemma Spotify_run_counts_witness :
  exists evs,
    trace (snd (@Spotify.analyzePlaylist TestRuntime.runtime TestRuntime.online
                  "1" 5 "PL" initial)) =
      ([Get AxiosSpotify "https://api.spotify.com/v1/playlists/PL/tracks?limit=100";
        Get AxiosSpotify "https://page/2"; Get AxiosSpotify "https://page/3"]
       ++ evs)%list
    /\ pauses evs = [Sleep 1000; Sleep 1000; Sleep 1000; Sleep 1000].
Proof.
  destruct (@Spotify_run_counts TestRuntime.runtime TestRuntime.online "1" 5 "PL"
              initial _ _ eq_refl eq_refl) as (evs & Htr & Hp & _).
  exists evs. split; [exact Htr | exact Hp].
Defined.

Lemma Deezer_run_counts_witness :
  exists evs,
    trace (snd (@Deezer.analyzePlaylist TestRuntime.runtime TestRuntime.online
                  "1" "PL" initial)) =
      (Get Axios "https://api.deezer.com/playlist/PL/tracks?limit=1000" :: evs)
    /\ (length (requests evs) <= 8)%nat
    /\ (length (pauses evs) <= 4)%nat.
Proof.
  destruct (@Deezer_run_counts TestRuntime.runtime TestRuntime.online "1" "PL"
              initial TestRuntime.deezerTracks eq_refl eq_refl)
    as (evs & Htr & Hr & Hp & _).
  exists evs. split; [exact Htr |]. split; [exact Hr | exact Hp].
Defined.

(** ** The rows and the tracks *)

Section Rows.
Context `{Runtime}.
Variable W : World.
Variable KEY : string.

Lemma eraseGenre_zip_with {T} (mk : T -> string -> OutputRecord)
    (ts : list T) (gs : list string) :
  (forall t g, eraseGenre (mk t g) = mk t "") ->
  length gs = length ts ->
  map eraseGenre (zip_with mk ts gs) = map (fun t => mk t "") ts.
Proof.
  intros Hmk. revert gs. induction ts as [| t ts IH]; intros [| g gs] Hlen;
    simpl in *; try discriminate; [reflexivity |].
  rewrite Hmk, IH by lia. reflexivity.
Qed.

(** X13: the file has exactly one row per track of the playlist, and apart
    from the genre each row is computed from its track alone: without their
    genres, the rows written are a rearrangement of the records of the
    tracks. No track is lost, duplicated or mixed up with another, in either
    script. *)
Theorem rows_are_the_tracks (fuel : nat) (PLAYLIST_ID : string) (s : State) :
  truthyStr PLAYLIST_ID = true ->
  (forall tracks s0,
     Spotify.getPlaylistTracks W fuel PLAYLIST_ID s = (Ok tracks, s0) ->
     exists rs,
       csvFile (snd (Spotify.analyzePlaylist W KEY fuel PLAYLIST_ID s)) = Some rs
       /\ Permutation (map eraseGenre rs)
                      (map (fun t => Spotify.makeRecord t "") tracks))
  /\ (forall tracks,
        deezerPlaylistTracks W (length (trace s)) (Deezer.playlistUrl PLAYLIST_ID)
          = Some tracks ->
        exists rs,
          csvFile (snd (Deezer.analyzePlaylist W KEY PLAYLIST_ID s)) = Some rs
          /\ Permutation (map eraseGenre rs)
                         (map (fun t => Deezer.makeRecord t "") tracks)).
Proof.
  intros Hid. split.
  - intros tracks s0 Hfetch.
    destruct (Spotify_analyzePlaylist_run W KEY fuel PLAYLIST_ID s s0 tracks
                Hid Hfetch) as (gs & evs & Hrun & Hlen & _).
    eexists. rewrite Hrun. split; [reflexivity |].
    rewrite <- (eraseGenre_zip_with Spotify.makeRecord tracks gs) by auto.
    apply Permutation_map, sortBy_perm.
  - intros tracks Hfetch.
    destruct (Deezer_analyzePlaylist_run W KEY PLAYLIST_ID s tracks Hid Hfetch)
      as (gs & s' & Hrun & Hfile & Hlen & _).
    eexists. rewrite Hrun. split; [exact Hfile |].
    rewrite <- (eraseGenre_zip_with Deezer.makeRecord tracks gs) by auto.
    apply Permutation_map, sortBy_perm.
Qed.

Lemma orStr_nonempty (x d : string) : d <> "" -> orStr x d <> "".
Proof. intros Hd. unfold orStr. destruct x; simpl; [exact Hd | discriminate]. Qed.

Lemma formatDuration_nonempty (v : Nullable JSNum) : Deezer.formatDuration v <> "".
Proof.
  unfold Deezer.formatDuration.
  destruct (negb (truthyNullableNum v) || negb (isFiniteV v)); [discriminate |].
  destruct v as [| | [| | | z]]; try discriminate.
  destruct (toString (floorDiv z 60)); discriminate.
Qed.

(** X14: every row the Deezer script writes is complete: title, artist,
    album, genre and duration are all non-empty strings (a missing value is
    replaced by the placeholder), when the run starts without a file and
    with a cache whose genre names are non-empty. *)
Theorem Deezer_rows_complete (PLAYLIST_ID : string) (s : State)
    (rs : list OutputRecord) :
  csvFile s = None ->
  cacheOk s ->
  csvFile (snd (Deezer.analyzePlaylist W KEY PLAYLIST_ID s)) = Some rs ->
  Forall (fun r => title r <> "" /\ r_artist r <> "" /\ r_album r <> ""
                   /\ genre r <> "" /\ duration r <> "") rs.
Proof.
  intros Hcsv Hc.
  unfold Deezer.analyzePlaylist.
  destruct (truthyStr PLAYLIST_ID) eqn:Hid; simpl; [| congruence].
  destruct (deezerPlaylistTracks W (length (trace s))
              (Deezer.playlistUrl PLAYLIST_ID)) as [tracks |] eqn:Hfetch.
  - destruct (Deezer_analyzePlaylist_run W KEY PLAYLIST_ID s tracks Hid Hfetch)
      as (gs & s' & Hrun & Hfile & _ & Hne).
    unfold Deezer.analyzePlaylist in Hrun. rewrite Hid in Hrun. simpl in Hrun.
    rewrite Hrun. simpl. rewrite Hfile. intros [= <-].
    apply sortRecords_Forall.
    specialize (Hne Hc). clear - Hne. revert tracks.
    induction Hne as [| g gs Hg _ IH]; intros [| t tracks]; simpl;
      constructor; [| apply IH].
    simpl. split; [apply orStr_nonempty; discriminate |].
    split; [apply orStr_nonempty; discriminate |].
    split; [apply orStr_nonempty; discriminate |].
    split; [exact Hg | apply formatDuration_nonempty].
  - unfold try_catch, bind, Deezer.getPlaylistTracks. rewrite get_run, Hfetch.
    simpl. congruence.
Qed.

End Rows.

(** In the Spotify script the title of a record is the name of the track
    as it is, so it can be empty. *)
Example Spotify_title_can_be_empty :
  title (Spotify.makeRecord
           (Spotify.mapTrack
              {| st_id := "t"; st_name := ""; st_duration_ms := Undefined;
                 st_artists := None; st_album := None |}) "Rock") = "".
Proof. reflexivity. Qed.

Lemma rows_are_the_tracks_witness :
  exists rs,
    csvFile (snd (@Deezer.analyzePlaylist TestRuntime.runtime TestRuntime.online
                    "1" "PL" initial)) = Some rs
    /\ Permutation (map eraseGenre rs)
                   (map (fun t => Deezer.makeRecord t "") TestRuntime.deezerTracks).
Proof.
  apply (proj2 (@rows_are_the_tracks TestRuntime.runtime TestRuntime.online "1" 5
                  "PL" initial eq_refl)).
  reflexivity.
Defined.

Lemma Deezer_rows_complete_witness :
  exists rs,
    csvFile (snd (@Deezer.analyzePlaylist TestRuntime.runtime TestRuntime.online
                    "1" "PL" initial)) = Some rs
    /\ length rs = 4%nat
    /\ Forall (fun r => title r <> "" /\ r_artist r <> "" /\ r_album r <> ""
                        /\ genre r <> "" /\ duration r <> "") rs.
Proof.
  eexists. split; [vm_compute; reflexivity |]. split; [reflexivity |].
  apply (@Deezer_rows_complete TestRuntime.runtime TestRuntime.online "1" "PL"
           initial _ eq_refl cacheOk_initial).
  vm_compute. reflexivity.
Defined.

(** ** More on the comparator and the sort *)

Lemma sortBy_sorted_id {A} (cmp : A -> A -> Z) (l : list A) :
  StronglySorted (fun a b => cmp a b <= 0) l -> sortBy cmp l = l.
Proof.
  induction 1 as [| x l Hs IH Hx]; [reflexivity |].
  cbn [sortBy fold_right]. fold (sortBy cmp l). rewrite IH.
  destruct l as [| y l]; [reflexivity |]. cbn [insertBy].
  apply Forall_cons in Hx as [Hxy _].
  destruct (Z.leb_spec (cmp x y) 0); [reflexivity | lia].
Qed.

(** Two sorted rearrangements of each other are equal when the order is
    antisymmetric on their elements. *)
Lemma sorted_perm_unique {A} (R : A -> A -> Prop) (l1 : list A) :
  forall l2,
    StronglySorted R l1 -> StronglySorted R l2 -> Permutation l1 l2 ->
    (forall x y, In x l1 -> In y l1 -> R x y -> R y x -> x = y) ->
    l1 = l2.
Proof.
  induction l1 as [| x l1 IH]; intros l2 H1 H2 Hperm Hanti.
  - now apply Permutation_nil in Hperm.
  - destruct l2 as [| y l2];
      [symmetry in Hperm; now apply Permutation_nil in Hperm |].
    apply StronglySorted_inv in H1 as [H1 Hx].
    apply StronglySorted_inv in H2 as [H2 Hy].
    assert (Hxy : x = y).
    { assert (Hin_y : In y (x :: l1))
        by (eapply Permutation_in; [symmetry; exact Hperm | now left]).
      assert (Hin_x : In x (y :: l2))
        by (eapply Permutation_in; [exact Hperm | now left]).
      destruct Hin_y as [-> | Hin_y]; [reflexivity |].
      destruct Hin_x as [-> | Hin_x]; [reflexivity |].
      apply Hanti; [now left | now right | |].
      - rewrite List.Forall_forall in Hx. now apply Hx.
      - rewrite List.Forall_forall in Hy. now apply Hy. }
    subst y. f_equal. apply IH; try assumption.
    + now apply Permutation_cons_inv in Hperm.
    + intros a b Ha Hb. apply Hanti; now right.
Qed.

Lemma NoDup_map_inj {A B} (f : A -> B) (l : list A) (x y : A) :
  NoDup (map f l) -> In x l -> In y l -> f x = f y -> x = y.
Proof.
  induction l as [| a l IH]; simpl; [contradiction |].
  intros Hnd Hx Hy Hf. apply NoDup_cons in Hnd as [Ha Hnd].
  destruct Hx as [-> | Hx], Hy as [-> | Hy]; auto.
  - exfalso. apply Ha. rewrite Hf. apply list_elem_of_In, in_map, Hy.
  - exfalso. apply Ha. rewrite <- Hf. apply list_elem_of_In, in_map, Hx.
Qed.

Section SortMore.
Context `{Runtime}.

Lemma compareRecords_total (a b : OutputRecord) :
  compareRecords a b <= 0 \/ compareRecords b a <= 0.
Proof.
  destruct (key_le_total (sortKey a) (sortKey b)); [left | right];
    now apply compareRecords_le.
Qed.

Lemma compareRecords_trans (a b c : OutputRecord) :
  compareRecords a b <= 0 -> compareRecords b c <= 0 -> compareRecords a c <= 0.
Proof.
  intros Hab Hbc. apply compareRecords_le.
  eapply key_le_trans; apply compareRecords_le; eassumption.
Qed.

Lemma ltb_both (a b : string) :
  (a <? b)%string = true -> (b <? a)%string = true -> False.
Proof. intros Hab Hba. rewrite (str_lt_asym a b Hab) in Hba. discriminate. Qed.

(** X15: the comparator of the report sort is a consistent comparator,
    as [Array.prototype.sort] needs for a defined result: it answers -1, 0
    or 1, swapping its arguments negates the answer, a record compares
    equal to itself, and "not after" is transitive. *)
Theorem compareRecords_consistent (a b c : OutputRecord) :
  compareRecords b a = - compareRecords a b
  /\ (compareRecords a b = -1 \/ compareRecords a b = 0 \/ compareRecords a b = 1)
  /\ compareRecords a a = 0
  /\ (compareRecords a b <= 0 -> compareRecords b c <= 0 -> compareRecords a c <= 0).
Proof.
  split; [| split; [| split]].
  - unfold compareRecords. rewrite !orStr_empty.
    set (g1 := toLowerCase (genre a)). set (g2 := toLowerCase (genre b)).
    set (a1 := toLowerCase (r_artist a)). set (a2 := toLowerCase (r_artist b)).
    set (t1 := toLowerCase (title a)). set (t2 := toLowerCase (title b)).
    destruct (g1 <? g2)%string eqn:G1, (g2 <? g1)%string eqn:G2;
      try (exfalso; eapply ltb_both; eassumption); try reflexivity.
    destruct (a1 <? a2)%string eqn:A1, (a2 <? a1)%string eqn:A2;
      try (exfalso; eapply ltb_both; eassumption); try reflexivity.
    destruct (t1 <? t2)%string eqn:T1, (t2 <? t1)%string eqn:T2;
      try (exfalso; eapply ltb_both; eassumption); reflexivity.
  - unfold compareRecords.
    repeat match goal with
           | |- context [if ?b then _ else _] => destruct b
           end; auto.
  - apply compareRecords_zero. reflexivity.
  - apply compareRecords_trans.
Qed.

Lemma sortRecords_sorted (l : list OutputRecord) :
  StronglySorted (fun a b => compareRecords a b <= 0) (sortRecords l).
Proof. apply sortBy_sorted; [apply compareRecords_total | apply compareRecords_trans]. Qed.

(** X16: records that are already in the order of the report are left
    exactly as they are, so sorting a second time changes nothing. *)
Theorem sortRecords_idempotent (l : list OutputRecord) :
  (StronglySorted (fun a b => key_le (sortKey a) (sortKey b)) l -> sortRecords l = l)
  /\ sortRecords (sortRecords l) = sortRecords l.
Proof.
  split.
  - intros Hs. apply sortBy_sorted_id.
    eapply StronglySorted_weaken; [| exact Hs].
    intros a b. apply compareRecords_le.
  - apply sortBy_sorted_id, sortRecords_sorted.
Qed.

Lemma key_le_antisym (k1 k2 : string * string * string) :
  key_le k1 k2 -> key_le k2 k1 -> k1 = k2.
Proof.
  destruct k1 as [[g1 a1] t1], k2 as [[g2 a2] t2]. unfold key_le, str_lt.
  intros [Hg | [-> Hr]] [Hg' | [Eg Hr']];
    try (exfalso; eapply ltb_both; eassumption);
    try (subst; exfalso; eapply str_lt_irrefl; eassumption).
  destruct Hr as [Ha | [-> Hr]], Hr' as [Ha' | [Ea Hr']];
    try (exfalso; eapply ltb_both; eassumption);
    try (subst; exfalso; eapply str_lt_irrefl; eassumption).
  destruct Hr as [Ht | ->], Hr' as [Ht' | Et];
    try (exfalso; eapply ltb_both; eassumption);
    try (subst; exfalso; eapply str_lt_irrefl; eassumption).
  reflexivity.
Qed.

(** X17: when no two records have the same lowercased (genre, artist,
    title) triple, the report does not depend on the order of the playlist:
    any two arrangements of the same records are sorted into the same
    list. *)
Theorem sortRecords_canonical (l1 l2 : list OutputRecord) :
  Permutation l1 l2 ->
  NoDup (map sortKey l1) ->
  sortRecords l1 = sortRecords l2.
Proof.
  intros Hperm Hnd.
  apply (sorted_perm_unique (fun a b => compareRecords a b <= 0)).
  - apply sortRecords_sorted.
  - apply sortRecords_sorted.
  - unfold sortRecords. rewrite !sortBy_perm. exact Hperm.
  - intros x y Hx Hy Hxy Hyx.
    assert (Hp : Permutation (sortRecords l1) l1) by apply sortBy_perm.
    apply (NoDup_map_inj sortKey l1); try assumption.
    + eapply Permutation_in; eassumption.
    + eapply Permutation_in; eassumption.
    + apply key_le_antisym; now apply compareRecords_le.
Qed.

End SortMore.

Lemma compareRecords_consistent_witness :
  let r g := {| title := "t"; r_artist := "a"; r_album := "x"; genre := g;
                duration := "1:05"; duration_seconds := IsNum (Fin 65) |} in
  @compareRecords TestRuntime.runtime (r "Pop") (r "rock") <= 0.
Proof.
  cbv zeta.
  apply (proj2 (proj2 (proj2 (@compareRecords_consistent TestRuntime.runtime
           {| title := "t"; r_artist := "a"; r_album := "x"; genre := "Pop";
              duration := "1:05"; duration_seconds := IsNum (Fin 65) |}
           {| title := "t"; r_artist := "a"; r_album := "x"; genre := "pop";
              duration := "1:05"; duration_seconds := IsNum (Fin 65) |}
           {| title := "t"; r_artist := "a"; r_album := "x"; genre := "rock";
              duration := "1:05"; duration_seconds := IsNum (Fin 65) |}))));
    vm_compute; discriminate.
Defined.

Lemma sortRecords_idempotent_witness :
  let r g := {| title := "t"; r_artist := "a"; r_album := "x"; genre := g;
                duration := "1:05"; duration_seconds := IsNum (Fin 65) |} in
  @sortRecords TestRuntime.runtime [r "Pop"; r "pop"; r "rock"] =
    [r "Pop"; r "pop"; r "rock"].
Proof.
  cbv zeta.
  apply (proj1 (@sortRecords_idempotent TestRuntime.runtime _)).
  repeat first [apply SSorted_cons | apply SSorted_nil
               | apply List.Forall_cons | apply List.Forall_nil];
    vm_compute;
    repeat first [left; reflexivity | right; reflexivity
                 | right; split; [reflexivity |]].
Defined.

Lemma sortRecords_canonical_witness :
  let r g := {| title := "t"; r_artist := "a"; r_album := "x"; genre := g;
                duration := "1:05"; duration_seconds := IsNum (Fin 65) |} in
  @sortRecords TestRuntime.runtime [r "rock"; r "Pop"] =
  @sortRecords TestRuntime.runtime [r "Pop"; r "rock"].
Proof.
  cbv zeta.
  apply (@sortRecords_canonical TestRuntime.runtime).
  - apply perm_swap.
  - vm_compute. repeat constructor; rewrite ?list_elem_of_In; simpl;
      intuition discriminate.
Defined.

(** ** More on durations *)

(** A printed integer starts with a digit or a minus sign. *)
Lemma toString_head (z : Z) :
  exists c rest, toString z = String c rest /\ c <> "I"%char.
Proof.
  unfold toString. destruct (Z.to_int z) as [d | d]; simpl.
  - destruct d; simpl; eexists _, _; (split; [reflexivity | discriminate]).
  - eexists _, _. split; [reflexivity | discriminate].
Qed.

Lemma formatted_not_placeholder (m : Z) (rest : string) :
  toString m ++ ":" ++ rest <> Inconnu.
Proof.
  destruct (toString_head m) as (c & r & -> & Hc). simpl.
  intros [= Hbad _]. now apply Hc.
Qed.

(** X18: the two formatters agree on whole seconds: a millisecond count of
    at least one whole second (or at most minus one millisecond) is printed
    by the Spotify script as the Deezer script prints its whole seconds.
    They part below one second: 1 to 999 milliseconds print as 0:00, while
    zero seconds print as the placeholder. *)
Theorem formatDurationMs_agrees_with_seconds (z w : Z) :
  floorDiv z 1000 <> 0 ->
  0 < w < 1000 ->
  Spotify.formatDurationMs (Val (Fin z)) =
    Deezer.formatDuration (Val (Fin (floorDiv z 1000)))
  /\ Spotify.formatDurationMs (Val (Fin w)) = "0:00"
  /\ Deezer.formatDuration (Val (Fin (floorDiv w 1000))) = Inconnu.
Proof.
  intros Hz Hw. split; [| split].
  - assert (z <> 0) by (intros ->; now apply Hz).
    now rewrite formatDurationMs_Fin, formatDuration_Fin.
  - rewrite formatDurationMs_Fin by lia. unfold floorDiv.
    now rewrite (Z.div_small w 1000) by lia.
  - unfold floorDiv. now rewrite (Z.div_small w 1000) by lia.
Qed.

Lemma formatDurationMs_agrees_with_seconds_witness :
  Spotify.formatDurationMs (Val (Fin 65999)) = Deezer.formatDuration (Val (Fin 65))
  /\ Spotify.formatDurationMs (Val (Fin 500)) = "0:00".
Proof.
  destruct (formatDurationMs_agrees_with_seconds 65999 500) as (H1 & H2 & _);
    [vm_compute; discriminate | lia |].
  split; [exact H1 | exact H2].
Defined.

(** X19: in a record of the Spotify script the two duration columns always
    go together: the seconds column is the empty marker exactly when the
    formatted column is the placeholder (the duration is missing, zero, NaN
    or infinite), and otherwise the formatted column is minutes:seconds of
    the number in the seconds column. *)
Theorem Spotify_duration_columns (t : Track) (g : string) :
  let r := Spotify.makeRecord t g in
  (duration r = Inconnu <-> duration_seconds r = IsStr "")
  /\ (duration_seconds r = IsStr "" <->
      truthyNullableNum (durationMs t) && isFiniteV (durationMs t) = false)
  /\ (forall n, duration_seconds r = IsNum n ->
        exists sec, n = Fin sec
                    /\ duration r = toString (floorDiv sec 60) ++ ":" ++
                                    padStart 2 "0" (toString (remainder sec 60))).
Proof.
  unfold Spotify.makeRecord, Spotify.formatDurationMs, Spotify.durationSecondsOf.
  simpl.
  destruct (durationMs t) as [| | [| | | z]]; simpl;
    try (split; [tauto | split; [tauto | discriminate]]).
  destruct (Z.eqb_spec z 0) as [-> | Hz]; simpl.
  - split; [tauto | split; [tauto | discriminate]].
  - split; [| split].
    + split; [| discriminate]. intros Hbad.
      now apply formatted_not_placeholder in Hbad.
    + split; discriminate.
    + intros n [= <-]. eexists. split; reflexivity.
Qed.

Lemma Spotify_duration_columns_witness :
  let t := Spotify.mapTrack
             {| st_id := "t"; st_name := "T"; st_duration_ms := Val (Fin 65999);
                st_artists := None; st_album := None |} in
  duration (Spotify.makeRecord t "Rock") = "1:05"
  /\ duration_seconds (Spotify.makeRecord t "Rock") = IsNum (Fin 65).
Proof.
  cbv zeta.
  destruct (Spotify_duration_columns
              (Spotify.mapTrack
                 {| st_id := "t"; st_name := "T"; st_duration_ms := Val (Fin 65999);
                    st_artists := None; st_album := None |}) "Rock")
    as (_ & _ & Hnum).
  destruct (Hnum (Fin 65) eq_refl) as (sec & [= <-] & Hd).
  split; [exact Hd | reflexivity].
Defined.

(** ** A playlist that never ends *)

Section Endless.
Variable W : World.

(** X20: the pagination loop has no bound of its own. If the server
    answers every request with a page that names a next page, the fetch
    never returns: whatever the fuel, it is used up, and by then one request
    was made per unit of fuel. *)
Theorem getPlaylistTracks_endless (fuel : nat) (playlistId : string) (s : State) :
  (forall t url, exists p,
     spotifyPlaylistTracks W t url = Some p /\ truthyOptStr (next p) = true) ->
  exists evs,
    Spotify.getPlaylistTracks W fuel playlistId s = (OutOfFuel, addEvents s evs)
    /\ requests evs = evs
    /\ length evs = fuel.
Proof.
  intros Hloop. unfold Spotify.getPlaylistTracks.
  assert (Hurl : truthyOptStr (Some (Spotify.playlistUrl playlistId)) = true)
    by reflexivity.
  revert Hurl. generalize (Some (Spotify.playlistUrl playlistId)) as url.
  generalize (@nil Track) as tracks. revert s.
  induction fuel as [| fuel IH]; intros s tracks url Hurl;
    cbn [Spotify.getPlaylistTracks_while]; rewrite Hurl.
  - exists []. rewrite addEvents_nil. repeat split.
  - unfold bind. rewrite get_run.
    destruct (Hloop (length (trace s)) (default "" url)) as (p & -> & Hnext).
    destruct (IH (addEvents s [Get AxiosSpotify (default "" url)])
                (Spotify.pushItems tracks (items p)) (next p) Hnext)
      as (evs & -> & Hreq & Hlen).
    exists (Get AxiosSpotify (default "" url) :: evs).
    rewrite addEvents_app. split; [reflexivity |].
    split; [| simpl; now rewrite Hlen].
    unfold requests in *. simpl. now rewrite Hreq.
Qed.

End Endless.

Lemma getPlaylistTracks_endless_witness :
  let W := {| spotifyPlaylistTracks := fun _ _ =>
                Some {| items := [TestRuntime.noTrack];
                        next := Some "https://page/again" |};
              spotifyArtist := fun _ _ => None;
              audioDBSearch := fun _ _ => None;
              audioDBSearchTrack := fun _ _ => None;
              deezerPlaylistTracks := fun _ _ => None;
              deezerAlbum := fun _ _ => None |} in
  exists evs,
    Spotify.getPlaylistTracks W 3 "PL" initial = (OutOfFuel, addEvents initial evs)
    /\ length evs = 3%nat.
Proof.
  cbv zeta.
  destruct (getPlaylistTracks_endless
              {| spotifyPlaylistTracks := fun _ _ =>
                   Some {| items := [TestRuntime.noTrack];
                           next := Some "https://page/again" |};
                 spotifyArtist := fun _ _ => None;
                 audioDBSearch := fun _ _ => None;
                 audioDBSearchTrack := fun _ _ => None;
                 deezerPlaylistTracks := fun _ _ => None;
                 deezerAlbum := fun _ _ => None |} 3 "PL" initial)
    as (evs & Hrun & _ & Hlen).
  - intros t url. eexists. split; reflexivity.
  - exists evs. split; [exact Hrun | exact Hlen].
Defined.
